(** * basic-openLayers: the map editing component of [src/App.js]

    A shallow embedding of the React component [App]: its state hooks, the
    OpenLayers objects it creates and mutates, its event handlers and its
    two effects.  Objects that the component shares between several
    places (layers held both by the map and by [geoJsonLayers], the vector
    source of the drawing layer) live in a store indexed by references, so
    that aliasing is the aliasing of the program.

    A handler returns [option App]: [None] stands for an uncaught
    [TypeError] (a method called on [null] or [undefined]); a session is
    followed up to the first of them. *)

From stdpp Require Import base option list strings gmap fin_maps.

Local Open Scope string_scope.
Local Open Scope nat_scope.
Local Open Scope list_scope.

(** ** Objects *)

(** Identity of an object created with [new]. *)
Definition ref := nat.

(** An [ol/Feature]; the component never looks inside one, it only moves
    features between collections. *)
Definition feature := nat.

(** A stored style field is a number literal of the source ([width: 1]) or
    the string delivered by an input element ([e.target.value]). *)
Inductive jsval :=
| Num (n : Z)
| Str (s : string).

(** [ol/style/Stroke]: [new Stroke()] has neither colour nor width. *)
Record Stroke := mkStroke {
  stroke_color : option string;
  stroke_width : option jsval
}.

(** [ol/style/Fill]: [new Fill()] has no colour. *)
Record Fill := mkFill {
  fill_color : option string
}.

(** [ol/style/Style]: [new Style()] has neither fill nor stroke. *)
Record Style := mkStyle {
  style_fill : option Fill;
  style_stroke : option Stroke
}.

(** What [layer.getStyle] is.  A tile layer has no such method.  On a
    vector layer it gives the style function the layer gets when it is
    built without a [style] option, a [Style] object, or [null]. *)
Inductive style_slot :=
| NoGetStyle
| DefaultStyleFunction
| StyleObject (s : Style)
| NoStyle.

(** The [source] option of a layer. *)
Inductive layer_source :=
| OSM
| XYZ (url : string)
| Vector (src : ref).

(** A [TileLayer] or [VectorLayer] object. *)
Record Layer := mkLayer {
  source : layer_source;
  visible : bool;
  style : style_slot
}.

(** The interactions the component installs, each with its identity and the
    options it was built with. *)
Inductive interaction :=
| Draw (id : ref) (src : ref) (type : string)
| Modify (id : ref) (src : ref)
| Translate (id : ref) (features : list feature).

Global Instance jsval_eq_dec : EqDecision jsval.
Proof. solve_decision. Defined.
Global Instance Stroke_eq_dec : EqDecision Stroke.
Proof. solve_decision. Defined.
Global Instance Fill_eq_dec : EqDecision Fill.
Proof. solve_decision. Defined.
Global Instance Style_eq_dec : EqDecision Style.
Proof. solve_decision. Defined.
Global Instance style_slot_eq_dec : EqDecision style_slot.
Proof. solve_decision. Defined.
Global Instance layer_source_eq_dec : EqDecision layer_source.
Proof. solve_decision. Defined.
Global Instance Layer_eq_dec : EqDecision Layer.
Proof. solve_decision. Defined.
Global Instance interaction_eq_dec : EqDecision interaction.
Proof. solve_decision. Defined.

(** The [ol/Map] object: its layer collection and the interactions added by
    the component (the default pan and zoom interactions are left out). *)
Record OlMap := mkMap {
  layers : list ref;
  interactions : list interaction
}.

(** ** Component state

    [layer_store] and [source_store] hold the layer and vector source
    objects; [next] is the next unused reference.  The other fields are
    the hooks of [App], under their names. *)
Record App := mkApp {
  layer_store : gmap ref Layer;
  source_store : gmap ref (list feature);
  next : ref;
  map : option OlMap;
  layerType : string;
  drawInteraction : option interaction;
  vectorSource : ref;
  geoJsonLayers : list ref;
  showAllLayers : bool
}.

Definition set_layer_store (h : gmap ref Layer) (st : App) : App :=
  mkApp h (source_store st) (next st) (map st) (layerType st)
        (drawInteraction st) (vectorSource st) (geoJsonLayers st)
        (showAllLayers st).

Definition set_source_store (h : gmap ref (list feature)) (st : App) : App :=
  mkApp (layer_store st) h (next st) (map st) (layerType st)
        (drawInteraction st) (vectorSource st) (geoJsonLayers st)
        (showAllLayers st).

Definition set_next (n : ref) (st : App) : App :=
  mkApp (layer_store st) (source_store st) n (map st) (layerType st)
        (drawInteraction st) (vectorSource st) (geoJsonLayers st)
        (showAllLayers st).

Definition setMap (m : option OlMap) (st : App) : App :=
  mkApp (layer_store st) (source_store st) (next st) m (layerType st)
        (drawInteraction st) (vectorSource st) (geoJsonLayers st)
        (showAllLayers st).

Definition setLayerType (v : string) (st : App) : App :=
  mkApp (layer_store st) (source_store st) (next st) (map st) v
        (drawInteraction st) (vectorSource st) (geoJsonLayers st)
        (showAllLayers st).

Definition setDrawInteraction (d : option interaction) (st : App) : App :=
  mkApp (layer_store st) (source_store st) (next st) (map st) (layerType st)
        d (vectorSource st) (geoJsonLayers st) (showAllLayers st).

Definition setGeoJsonLayers (g : list ref) (st : App) : App :=
  mkApp (layer_store st) (source_store st) (next st) (map st) (layerType st)
        (drawInteraction st) (vectorSource st) g (showAllLayers st).

Definition setShowAllLayers (b : bool) (st : App) : App :=
  mkApp (layer_store st) (source_store st) (next st) (map st) (layerType st)
        (drawInteraction st) (vectorSource st) (geoJsonLayers st) b.

(** ** Methods of the OpenLayers objects used by the component *)

(** [map.addLayer(l)]: pushed at the end of the layer collection. *)
Definition addLayer (l : ref) (m : OlMap) : OlMap :=
  mkMap (layers m ++ [l]) (interactions m).

(** [map.removeLayer(l)]. *)
Definition removeLayer (l : ref) (m : OlMap) : OlMap :=
  mkMap (filter (λ x, x ≠ l) (layers m)) (interactions m).

(** [map.getLayers().clear()]. *)
Definition clearLayers (m : OlMap) : OlMap :=
  mkMap [] (interactions m).

(** [map.addInteraction(i)]. *)
Definition addInteraction (i : interaction) (m : OlMap) : OlMap :=
  mkMap (layers m) (interactions m ++ [i]).

(** [map.removeInteraction(i)]. *)
Definition removeInteraction (i : interaction) (m : OlMap) : OlMap :=
  mkMap (layers m) (filter (λ x, x ≠ i) (interactions m)).

(** [layer.setVisible(v)]. *)
Definition setVisible (v : bool) (L : Layer) : Layer :=
  mkLayer (source L) v (style L).

(** [layer.setStyle(s)]. *)
Definition setStyle (s : style_slot) (L : Layer) : Layer :=
  mkLayer (source L) (visible L) s.

(** [source.getFeatures()]: a fresh array of the features of the source. *)
Definition getFeatures (s : ref) (st : App) : list feature :=
  default [] (source_store st !! s).

(** [source.addFeature(f)]. *)
Definition addFeature (s : ref) (f : feature) (st : App) : App :=
  set_source_store (alter (λ fs, fs ++ [f]) s (source_store st)) st.

(** [new TileLayer({ source })] and [new VectorLayer({ source })]: no
    [visible] option is passed, and a layer is visible by default. *)
Definition new_TileLayer (s : layer_source) : Layer :=
  mkLayer s true NoGetStyle.

Definition new_VectorLayer (s : ref) : Layer :=
  mkLayer (Vector s) true DefaultStyleFunction.

(** Stores a new layer object and returns its reference. *)
Definition alloc_layer (L : Layer) (st : App) : ref * App :=
  (next st, set_next (S (next st)) (set_layer_store (<[next st := L]> (layer_store st)) st)).

(** Stores a new vector source object and returns its reference. *)
Definition alloc_source (fs : list feature) (st : App) : ref * App :=
  (next st, set_next (S (next st)) (set_source_store (<[next st := fs]> (source_store st)) st)).

(** ** The component *)

(** State of the first render: [useRef(new VectorSource())] and the initial
    values of the [useState] hooks. *)
Definition initial : App :=
  mkApp ∅ {[ 0 := [] ]} 1 None "osm" None 0 [] true.

(** First effect (lines 24-45): builds the map with an OSM tile layer, adds
    the drawing layer over [vectorSource.current] and stores the map. *)
Definition mount_effect (st : App) : App :=
  let '(tile, st1) := alloc_layer (new_TileLayer OSM) st in
  let initialMap := mkMap [tile] [] in
  let '(vectorLayer, st2) := alloc_layer (new_VectorLayer (vectorSource st1)) st1 in
  setMap (Some (addLayer vectorLayer initialMap)) st2.

Definition satellite_url : string :=
  "https://services.arcgisonline.com/arcgis/rest/services/World_Imagery/MapServer/tile/{z}/{y}/{x}".

(** Second effect (lines 47-72), run when [layerType], [map] or
    [geoJsonLayers] changed.  For a [layerType] that is neither ['osm'] nor
    ['satellite'], [newLayer] stays [undefined] and [map.addLayer] fails on
    it after the collection was cleared. *)
Definition layers_effect (st : App) : option App :=
  match map st with
  | None => Some st
  | Some m =>
      let newLayer :=
        if String.eqb (layerType st) "osm" then Some (new_TileLayer OSM)
        else if String.eqb (layerType st) "satellite"
             then Some (new_TileLayer (XYZ satellite_url))
             else None in
      let m1 := clearLayers m in
      match newLayer with
      | None => None
      | Some tileLayer =>
          let '(tile, st1) := alloc_layer tileLayer st in
          let m2 := addLayer tile m1 in
          let '(vectorLayer, st2) := alloc_layer (new_VectorLayer (vectorSource st1)) st1 in
          let m3 := addLayer vectorLayer m2 in
          let m4 := foldl (λ acc layer, addLayer layer acc) m3 (geoJsonLayers st2) in
          Some (setMap (Some m4) st2)
      end
  end.

(** [handleLayerChange] (lines 74-76). *)
Definition handleLayerChange (value : string) (st : App) : App :=
  setLayerType value st.

(** [addDrawInteraction] (lines 78-101). *)
Definition addDrawInteraction (type : string) (st : App) : option App :=
  match map st with
  | None => Some st
  | Some m =>
      let m1 := match drawInteraction st with
                | Some d => removeInteraction d m
                | None => m
                end in
      let draw := Draw (next st) (vectorSource st) type in
      Some (setDrawInteraction (Some draw)
              (setMap (Some (addInteraction draw m1))
                 (set_next (S (next st)) st)))
  end.

(** The ['drawend'] listener registered by [addDrawInteraction]
    (lines 93-97); [draw] is the interaction of the enclosing call. *)
Definition drawend (draw : interaction) (st : App) : option App :=
  match map st with
  | None => None
  | Some m =>
      Some (setDrawInteraction None (setMap (Some (removeInteraction draw m)) st))
  end.

(** Modelled from the spec: [ol/interaction/Draw] is not part of [src/].
    When the user completes a shape on an installed Draw interaction, the
    interaction fires ['drawend'] and then appends the completed feature to
    the source it was built with ("Appends the completed feature to the
    Geometry Store").  An interaction that is not installed on the map
    receives no pointer event. *)
Definition finishDrawing (draw : interaction) (f : feature) (st : App) : option App :=
  match map st, draw with
  | Some m, Draw _ src _ =>
      if decide (draw ∈ interactions m)
      then st1 ← drawend draw st; Some (addFeature src f st1)
      else Some st
  | _, _ => Some st
  end.

(** The style given to an imported layer (lines 120-123). *)
Definition import_style : Style :=
  mkStyle (Some (mkFill (Some "rgba(255, 255, 255, 0.6)")))
          (Some (mkStroke (Some "#319FD3") (Some (Num 1)))).

(** [reader.onload] of [handleGeoJSONImport] (lines 107-129), for a text
    that [readFeatures] parsed into [features].  [captured] is the value
    [geoJsonLayers] had in the render in which the file was chosen: the
    listener closes over it.  [map] is the same object in every render
    after the first. *)
Definition reader_onload (captured : list ref) (features : list feature)
    (st : App) : option App :=
  let '(geoJsonVectorSource, st1) := alloc_source features st in
  let '(newGeoJsonLayer, st2) :=
    alloc_layer (mkLayer (Vector geoJsonVectorSource) true (StyleObject import_style)) st1 in
  match map st2 with
  | None => None
  | Some m =>
      Some (setGeoJsonLayers (captured ++ [newGeoJsonLayer])
              (setMap (Some (addLayer newGeoJsonLayer m)) st2))
  end.


(** [handleShowHideAll] (lines 134-139). *)
Definition handleShowHideAll (st : App) : App :=
  let h := foldl (λ acc layer, alter (setVisible (negb (showAllLayers st))) layer acc)
                 (layer_store st) (geoJsonLayers st) in
  setShowAllLayers (negb (showAllLayers st)) (set_layer_store h st).

(** The ['download'] case of [handleLayerAction] (lines 150-163): what is
    handed to the browser.  [download_features] are the features given to
    [writeFeatures], those [getFeatures] returns; a layer without a vector
    source has no [getFeatures]. *)
Record Download := mkDownload {
  download_features : list feature;
  download_type : string;
  download_name : string
}.

Definition download_layer (layer : ref) (st : App) : option Download :=
  L ← layer_store st !! layer;
  match source L with
  | Vector s =>
      fs ← source_store st !! s;
      Some (mkDownload fs "application/json" "layer.geojson")
  | _ => None
  end.

(** [handleLayerAction] (lines 141-170).  ['zoom'] only moves the view,
    which is not part of the state: it needs the extent of the layer's
    vector source, and [fit] refuses an empty extent; a feature is taken
    to have a geometry, so that the extent is empty when the source has no
    feature.  ['download'] only hands a file to the browser, when the
    layer has a vector source to take the features from. *)
Definition handleLayerAction (action : string) (layer : ref) (st : App) : option App :=
  if String.eqb action "zoom" then
    match map st with
    | None => None
    | Some _ =>
        L ← layer_store st !! layer;
        match source L with
        | Vector s =>
            fs ← source_store st !! s;
            match fs with
            | [] => None
            | _ :: _ => Some st
            end
        | _ => None
        end
    end
  else if String.eqb action "delete" then
    match map st with
    | None => None
    | Some m =>
        Some (setGeoJsonLayers (filter (λ l, l ≠ layer) (geoJsonLayers st))
                (setMap (Some (removeLayer layer m)) st))
    end
  else if String.eqb action "download" then
    _ ← download_layer layer st; Some st
  else if String.eqb action "showHide" then
    match layer_store st !! layer with
    | None => None
    | Some L =>
        Some (set_layer_store (<[layer := setVisible (negb (visible L)) L]> (layer_store st)) st)
    end
  else Some st.

(** [handleModifyFeatures] (lines 172-175). *)
Definition handleModifyFeatures (st : App) : option App :=
  match map st with
  | None => None
  | Some m =>
      let modify := Modify (next st) (vectorSource st) in
      Some (setMap (Some (addInteraction modify m)) (set_next (S (next st)) st))
  end.

(** [handleTranslateFeatures] (lines 177-180). *)
Definition handleTranslateFeatures (st : App) : option App :=
  match map st with
  | None => None
  | Some m =>
      let translate := Translate (next st) (getFeatures (vectorSource st) st) in
      Some (setMap (Some (addInteraction translate m)) (set_next (S (next st)) st))
  end.

(** [handleStyleChange] (lines 182-194).  On a tile layer
    [layer.getStyle] is not a function; on a layer that still has the
    default style function, [layerStyle.getStroke] is not a function. *)
Definition handleStyleChange (layer : ref) (property value : string)
    (st : App) : option App :=
  match layer_store st !! layer with
  | None => None
  | Some L =>
      let layerStyle :=
        match style L with
        | NoGetStyle => None
        | DefaultStyleFunction => None
        | StyleObject s => Some s
        | NoStyle => Some (mkStyle None None)
        end in
      match layerStyle with
      | None => None
      | Some s =>
          let stroke := default (mkStroke None None) (style_stroke s) in
          let fill := default (mkFill None) (style_fill s) in
          let stroke1 :=
            if String.eqb property "color"
            then mkStroke (Some value) (stroke_width stroke) else stroke in
          let stroke2 :=
            if String.eqb property "strokeWidth"
            then mkStroke (stroke_color stroke1) (Some (Str value)) else stroke1 in
          let fill1 :=
            if String.eqb property "fillOpacity"
            then mkFill (Some ("rgba(255, 255, 255, " +:+ value +:+ ")")) else fill in
          let s' := mkStyle (Some fill1) (Some stroke2) in
          Some (set_layer_store (<[layer := setStyle (StyleObject s') L]> (layer_store st)) st)
      end
  end.

(** ** Events

    One constructor per way the browser enters the component: a control of
    the rendered page, the completion of a file read, the completion of a
    shape on the map.  A file read completes as [FileLoaded] when
    [readFeatures] returns features for its text, and as [FileRejected]
    when [readFeatures] throws on it (line 109). *)
Inductive event :=
| LayerChange (value : string)
| DrawButton (type : string)
| ShapeCompleted (draw : interaction) (f : feature)
| ModifyButton
| TranslateButton
| FileLoaded (captured : list ref) (features : list feature)
| ShowHideAllBox
| LayerButton (action : string) (layer : ref)
| StyleInput (layer : ref) (property value : string)
| FileRejected.

(** A handler followed by the render it causes.  The second effect runs
    again when one of its dependencies changed: [layerType] when the new
    value differs, [geoJsonLayers] after every [setGeoJsonLayers], since
    the spread and [filter] always build a new array.  The load listener
    has no [try]: what [readFeatures] throws leaves it uncaught, before
    any object or state is touched. *)
Definition step (ev : event) (st : App) : option App :=
  match ev with
  | LayerChange value =>
      let st1 := handleLayerChange value st in
      if String.eqb value (layerType st) then Some st1 else layers_effect st1
  | DrawButton type => addDrawInteraction type st
  | ShapeCompleted draw f => finishDrawing draw f st
  | ModifyButton => handleModifyFeatures st
  | TranslateButton => handleTranslateFeatures st
  | FileLoaded captured features =>
      st1 ← reader_onload captured features st; layers_effect st1
  | ShowHideAllBox => Some (handleShowHideAll st)
  | LayerButton action layer =>
      st1 ← handleLayerAction action layer st;
      if String.eqb action "delete" then layers_effect st1 else Some st1
  | StyleInput layer property value => handleStyleChange layer property value st
  | FileRejected => None
  end.

(** The events [evs] in order, up to the first that throws. *)
Fixpoint run (evs : list event) (st : App) : option App :=
  match evs with
  | [] => Some st
  | ev :: evs' => st1 ← step ev st; run evs' st1
  end.

(** The first render runs the first effect; the second effect of that
    render still sees [map] as [null] and does nothing.  The render caused
    by [setMap] then runs the second effect on the new map. *)
Definition mount (st : App) : option App :=
  layers_effect (mount_effect st).

(** The component after the events [evs], from its first render. *)
Definition session (evs : list event) : option App :=
  st ← mount initial; run evs st.

(** The states of a session: the mounted component, and what an event
    makes of such a state. *)
Inductive reachable : App → Prop :=
| reachable_mount st :
    mount initial = Some st → reachable st
| reachable_step st ev st' :
    reachable st → step ev st = Some st' → reachable st'.

(** ** Vocabulary of the properties *)

Definition is_draw (i : interaction) : bool :=
  match i with Draw _ _ _ => true | _ => false end.

(** The Draw interactions installed on the map. *)
Definition draws (m : OlMap) : list interaction :=
  filter (λ i, is_draw i) (interactions m).

(** The Modify and Translate interactions installed on the map. *)
Definition edits (m : OlMap) : list interaction :=
  filter (λ i, ¬ is_draw i) (interactions m).

(** A layer over the vector source of the drawing layer is on the map. *)
Definition has_freehand (st : App) : Prop :=
  ∃ m l L, map st = Some m ∧ l ∈ layers m ∧
           layer_store st !! l = Some L ∧ source L = Vector (vectorSource st).

(** Stroke colour, stroke width and fill colour recorded in a style slot. *)
Definition slot_stroke_color (s : style_slot) : option string :=
  match s with
  | StyleObject s => style_stroke s ≫= stroke_color
  | _ => None
  end.

Definition slot_stroke_width (s : style_slot) : option jsval :=
  match s with
  | StyleObject s => style_stroke s ≫= stroke_width
  | _ => None
  end.

Definition slot_fill_color (s : style_slot) : option string :=
  match s with
  | StyleObject s => style_fill s ≫= fill_color
  | _ => None
  end.

(** ** Well-formed states

    What every state of a session satisfies besides the presence of the
    drawing layer: the map exists, the only Draw interaction on it is the
    one recorded in [drawInteraction], and references are allocated in
    increasing order. *)
Record wf (st : App) : Prop := mk_wf {
  wf_map : is_Some (map st);
  wf_draws : ∀ m, map st = Some m → draws m = option_list (drawInteraction st);
  wf_draw_source : ∀ d, drawInteraction st = Some d →
                        ∃ id type, d = Draw id (vectorSource st) type;
  wf_layerType : layerType st = "osm" ∨ layerType st = "satellite";
  wf_layers_fresh : ∀ l, is_Some (layer_store st !! l) → l < next st;
  wf_sources_fresh : ∀ s, is_Some (source_store st !! s) → s < next st;
  wf_vectorSource : is_Some (source_store st !! vectorSource st)
}.

(** The invariant of a session. *)
Definition inv (st : App) : Prop := wf st ∧ has_freehand st.

(** The state the second effect leaves when it puts [tileLayer] under the
    layers: the closed form of [layers_effect]. *)
Definition rebuilt (tileLayer : Layer) (m : OlMap) (st : App) : App :=
  mkApp (<[S (next st) := new_VectorLayer (vectorSource st)]>
           (<[next st := tileLayer]> (layer_store st)))
        (source_store st) (S (S (next st)))
        (Some (mkMap (next st :: S (next st) :: geoJsonLayers st) (interactions m)))
        (layerType st) (drawInteraction st) (vectorSource st)
        (geoJsonLayers st) (showAllLayers st).

(** The state after the events [evs], when none of them throws. *)
Definition state_after (evs : list event) : App :=
  default initial (session evs).

(** The interactions installed on the map after the events [evs]. *)
Definition installed (evs : list event) : option (list interaction) :=
  st ← session evs; m ← map st; Some (interactions m).

(** The layer collection of the map after the events [evs]. *)
Definition shown (evs : list event) : option (list ref) :=
  st ← session evs; m ← map st; Some (layers m).

(** Visibility of a layer object, if there is one under that reference. *)
Definition getVisible (layer : ref) (st : App) : option bool :=
  visible <$> layer_store st !! layer.


(** ** The rest of the component *)

(** One entry of the layer list of the page (lines 295-329): the number in
    its title, the layer its buttons and inputs act on, and the text of its
    show/hide button. *)
Record LayerRow := mkRow {
  row_number : nat;
  row_layer : ref;
  row_toggle : string
}.

(** What [App] returns (lines 196-332), as far as it depends on the state:
    the value of the basemap select, the checked state of the box and the
    layer list. *)
Record View := mkView {
  select_value : string;
  checkbox_checked : bool;
  rows : list LayerRow
}.

(** [geoJsonLayers.map((layer, index) => ...)], from [index] on. *)
Fixpoint render_rows (index : nat) (ls : list ref) (st : App) : option (list LayerRow) :=
  match ls with
  | [] => Some []
  | layer :: ls' =>
      L ← layer_store st !! layer;
      rest ← render_rows (S index) ls' st;
      Some (mkRow (index + 1) layer (if visible L then "Hide" else "Show") :: rest)
  end.

Definition render (st : App) : option View :=
  rs ← render_rows 0 (geoJsonLayers st) st;
  Some (mkView (layerType st) (showAllLayers st) rs).

(** The page: the state of the component and what its last render put on
    the screen. *)
Record Page := mkPage {
  app : App;
  view : option View
}.

(** Whether the handler of [ev] changed a state hook, which is what makes
    React render [App] again: [layerType], [drawInteraction] and
    [showAllLayers] by their value, [geoJsonLayers] by every
    [setGeoJsonLayers], since the array is always a new one. *)
Definition renders (ev : event) (st st' : App) : bool :=
  bool_decide (layerType st' ≠ layerType st)
  || bool_decide (drawInteraction st' ≠ drawInteraction st)
  || bool_decide (showAllLayers st' ≠ showAllLayers st)
  || match ev with
     | FileLoaded _ _ => true
     | LayerButton action _ => String.eqb action "delete"
     | _ => false
     end.

(** An event on the page: the screen changes only with a render. *)
Definition page_step (ev : event) (pg : Page) : option Page :=
  st' ← step ev (app pg);
  Some (mkPage st' (if renders ev (app pg) st' then render st' else view pg)).

(** ** Vocabulary of the further properties *)

(** The tile layer the second effect builds for a [layerType]. *)
Definition tile_for (value : string) : option Layer :=
  if String.eqb value "osm" then Some (new_TileLayer OSM)
  else if String.eqb value "satellite" then Some (new_TileLayer (XYZ satellite_url))
  else None.

(** The state [reader_onload] leaves on the map [m], before the render. *)
Definition loaded (captured : list ref) (features : list feature)
    (m : OlMap) (st : App) : App :=
  mkApp (<[S (next st) :=
             mkLayer (Vector (next st)) true (StyleObject import_style)]>
           (layer_store st))
        (<[next st := features]> (source_store st))
        (S (S (next st)))
        (Some (addLayer (S (next st)) m))
        (layerType st) (drawInteraction st) (vectorSource st)
        (captured ++ [S (next st)]) (showAllLayers st).

(** The state the delete action leaves on the map [m], before the render. *)
Definition deleted (layer : ref) (m : OlMap) (st : App) : App :=
  setGeoJsonLayers (filter (λ l, l ≠ layer) (geoJsonLayers st))
    (setMap (Some (removeLayer layer m)) st).

(** What an event makes of a state whose map is [m], case by case. *)
Inductive fired (st : App) (m : OlMap) : event → App → Prop :=
| fired_same_basemap :
    fired st m (LayerChange (layerType st)) st
| fired_basemap value tile :
    value ≠ layerType st → tile_for value = Some tile →
    fired st m (LayerChange value) (rebuilt tile m (handleLayerChange value st))
| fired_draw type :
    fired st m (DrawButton type)
      (setDrawInteraction (Some (Draw (next st) (vectorSource st) type))
         (setMap (Some (addInteraction (Draw (next st) (vectorSource st) type)
                          (match drawInteraction st with
                           | Some d => removeInteraction d m
                           | None => m
                           end)))
            (set_next (S (next st)) st)))
| fired_shape id type f :
    Draw id (vectorSource st) type ∈ interactions m →
    drawInteraction st = Some (Draw id (vectorSource st) type) →
    fired st m (ShapeCompleted (Draw id (vectorSource st) type) f)
      (addFeature (vectorSource st) f
         (setDrawInteraction None
            (setMap (Some (removeInteraction (Draw id (vectorSource st) type) m)) st)))
| fired_no_shape draw f :
    draw ∉ draws m →
    fired st m (ShapeCompleted draw f) st
| fired_modify :
    fired st m ModifyButton
      (setMap (Some (addInteraction (Modify (next st) (vectorSource st)) m))
         (set_next (S (next st)) st))
| fired_translate :
    fired st m TranslateButton
      (setMap (Some (addInteraction
                       (Translate (next st) (getFeatures (vectorSource st) st)) m))
         (set_next (S (next st)) st))
| fired_file captured features tile :
    tile_for (layerType st) = Some tile →
    fired st m (FileLoaded captured features)
      (rebuilt tile (addLayer (S (next st)) m) (loaded captured features m st))
| fired_show_hide_all :
    fired st m ShowHideAllBox (handleShowHideAll st)
| fired_delete layer tile :
    tile_for (layerType st) = Some tile →
    fired st m (LayerButton "delete" layer)
      (rebuilt tile (removeLayer layer m) (deleted layer m st))
| fired_show_hide layer L :
    layer_store st !! layer = Some L →
    fired st m (LayerButton "showHide" layer)
      (set_layer_store (<[layer := setVisible (negb (visible L)) L]> (layer_store st)) st)
| fired_other_action action layer :
    action ≠ "delete" → action ≠ "showHide" →
    fired st m (LayerButton action layer) st
| fired_style layer property value L s' :
    layer_store st !! layer = Some L → style L ≠ DefaultStyleFunction →
    fired st m (StyleInput layer property value)
      (set_layer_store (<[layer := setStyle (StyleObject s') L]> (layer_store st)) st).

(** The features a completed shape adds to the Geometry Store: one, when
    the shape was drawn with a Draw interaction installed on the map. *)
Definition completes (ev : event) (st : App) : list feature :=
  match ev, map st with
  | ShapeCompleted draw f, Some m =>
      if decide (draw ∈ draws m) then [f] else []
  | _, _ => []
  end.

(** The layer objects whose visibility or style an event may change. *)
Definition touched (ev : event) (st : App) : list ref :=
  match ev with
  | ShowHideAllBox => geoJsonLayers st
  | LayerButton action layer => if String.eqb action "showHide" then [layer] else []
  | StyleInput layer _ _ => [layer]
  | _ => []
  end.

(** A layer object as an import builds it: a style object, and a vector
    source of its own, other than that of the Geometry Store. *)
Definition imported_layer (st : App) (l : ref) : Prop :=
  ∃ L s sty,
    layer_store st !! l = Some L ∧ source L = Vector s ∧
    style L = StyleObject sty ∧ s ≠ vectorSource st ∧
    is_Some (source_store st !! s).

(** The events the page can send in a state [st]: [h] lists the values
    [geoJsonLayers] had in the renders so far.  The select offers two
    basemaps; a load listener holds the list of the render it was made in;
    the buttons and inputs of the layer list exist for the layers of
    [geoJsonLayers], with the four actions and the three properties of
    lines 298-326. *)
Definition offered (h : list (list ref)) (st : App) (ev : event) : Prop :=
  match ev with
  | LayerChange value => value = "osm" ∨ value = "satellite"
  | FileLoaded captured _ => captured ∈ h
  | LayerButton action layer =>
      layer ∈ geoJsonLayers st ∧
      action ∈ ["zoom"; "delete"; "download"; "showHide"]
  | StyleInput layer property _ =>
      layer ∈ geoJsonLayers st ∧
      property ∈ ["color"; "strokeWidth"; "fillOpacity"]
  | _ => True
  end.

(** The states of a session driven through the page, each with the values
    [geoJsonLayers] has had. *)
Inductive ui_session : list (list ref) → App → Prop :=
| ui_mount st :
    mount initial = Some st → ui_session [geoJsonLayers st] st
| ui_event h st ev st' :
    ui_session h st → offered h st ev → step ev st = Some st' →
    ui_session (geoJsonLayers st' :: h) st'.

(** What holds of the layers in a session driven through the page: the
    lists [geoJsonLayers] has had are duplicate free and made of imported
    layers, and the map shows a tile layer for the chosen basemap, the
    untouched drawing layer, and the current list. *)
Record ui_inv (h : list (list ref)) (st : App) : Prop := mk_ui_inv {
  ui_current : geoJsonLayers st ∈ h;
  ui_lists : ∀ g, g ∈ h → NoDup g ∧ ∀ l, l ∈ g → imported_layer st l;
  ui_map : ∃ m t fh tile,
      map st = Some m ∧ layers m = t :: fh :: geoJsonLayers st ∧
      tile_for (layerType st) = Some tile ∧
      layer_store st !! t = Some tile ∧
      layer_store st !! fh = Some (new_VectorLayer (vectorSource st))
}.

(** What an installed interaction works on: a Draw or Modify interaction
    on the vector source of the Geometry Store, a Translate interaction on
    features of the store. *)
Definition bound_to_store (st : App) (i : interaction) : Prop :=
  match i with
  | Draw _ src _ => src = vectorSource st
  | Modify _ src => src = vectorSource st
  | Translate _ fs => ∀ f, f ∈ fs → f ∈ getFeatures (vectorSource st) st
  end.


(** ** Lists and stores *)


Lemma foldl_addLayer (ls : list ref) (m : OlMap) :
  foldl (λ acc layer, addLayer layer acc) m ls
  = mkMap (layers m ++ ls) (interactions m).
Proof.
  revert m. induction ls as [|l ls IH]; intros m; simpl.
  - rewrite app_nil_r. by destruct m.
  - rewrite IH. simpl. by rewrite <- app_assoc.
Qed.

Lemma draws_remove (d : interaction) (l : list interaction) :
  filter (λ i, is_draw i) l = [d] →
  filter (λ i, is_draw i) (filter (λ x, x ≠ d) l) = [].
Proof.
  intros H. rewrite list_filter_filter.
  apply elem_of_nil_inv. intros x [[Hx Hne] Hin]%list_elem_of_filter.
  assert (x ∈ filter (λ i, is_draw i) l) as Hf
    by (apply list_elem_of_filter; done).
  rewrite H in Hf. by apply list_elem_of_singleton in Hf.
Qed.

Lemma edits_remove (d : interaction) (l : list interaction) :
  is_draw d →
  filter (λ i, ¬ is_draw i) (filter (λ x, x ≠ d) l)
  = filter (λ i, ¬ is_draw i) l.
Proof.
  intros Hd. rewrite list_filter_filter. apply list_filter_iff.
  intros x. split; [by intros [? _]|].
  intros Hx. split; [done|]. intros ->. done.
Qed.

Lemma lookup_setVisible_all (v : bool) (gl : list ref) (h : gmap ref Layer) (l : ref) :
  foldl (λ acc layer, alter (setVisible v) layer acc) h gl !! l
  = if decide (l ∈ gl) then setVisible v <$> h !! l else h !! l.
Proof.
  revert h. induction gl as [|a gl IH]; intros h.
  - case_decide as Hin; [by apply elem_of_nil in Hin|done].
  - cbn [foldl]. rewrite IH. destruct (decide (l = a)) as [->|Hne].
    + rewrite lookup_alter_eq.
      destruct (decide (a ∈ a :: gl)) as [_|Hn]; [|by destruct Hn; left].
      destruct (decide (a ∈ gl)); by destruct (h !! a).
    + rewrite lookup_alter_ne by done.
      destruct (decide (l ∈ gl)) as [H1|H1],
               (decide (l ∈ a :: gl)) as [H2|H2]; try done.
      * destruct H2. by right.
      * apply elem_of_cons in H2 as [?|?]; done.
Qed.


(** ** The second effect, in closed form *)

Lemma layers_effect_rebuilt (st : App) (m : OlMap) :
  map st = Some m →
  layerType st = "osm" ∨ layerType st = "satellite" →
  ∃ tileLayer,
    (tileLayer = new_TileLayer OSM ∨ tileLayer = new_TileLayer (XYZ satellite_url)) ∧
    layers_effect st = Some (rebuilt tileLayer m st).
Proof.
  intros Hm Ht. unfold layers_effect. rewrite Hm.
  destruct Ht as [Ht|Ht]; rewrite Ht; simpl.
  - exists (new_TileLayer OSM). split; [by left|].
    rewrite foldl_addLayer. done.
  - exists (new_TileLayer (XYZ satellite_url)). split; [by right|].
    rewrite foldl_addLayer. done.
Qed.

Lemma rebuilt_wf (tileLayer : Layer) (m : OlMap) (st : App) :
  map st = Some m → wf st → wf (rebuilt tileLayer m st).
Proof.
  intros Hm [_ Hd Hs Ht Hl Hsrc Hv]. split; simpl; try done.
  - intros m' [= <-]. unfold draws. simpl. by apply Hd.
  - intros l. rewrite !lookup_insert.
    case_decide as H1; [lia|]. case_decide as H2; [lia|].
    intros Hin. apply Hl in Hin. lia.
  - intros s Hin. apply Hsrc in Hin. lia.
Qed.

Lemma rebuilt_has_freehand (tileLayer : Layer) (m : OlMap) (st : App) :
  has_freehand (rebuilt tileLayer m st).
Proof.
  exists (mkMap (next st :: S (next st) :: geoJsonLayers st) (interactions m)),
         (S (next st)), (new_VectorLayer (vectorSource st)).
  simpl. split_and!; try done.
  - apply elem_of_cons. right. apply elem_of_cons. by left.
  - by rewrite lookup_insert_eq.
Qed.

Lemma layers_effect_wf (st : App) :
  wf st → ∃ st', layers_effect st = Some st' ∧ wf st' ∧ has_freehand st'.
Proof.
  intros Hwf. destruct (wf_map st Hwf) as [m Hm].
  destruct (layers_effect_rebuilt st m Hm (wf_layerType st Hwf)) as (t & _ & ->).
  eexists. split; [done|]. split.
  - by apply rebuilt_wf.
  - apply rebuilt_has_freehand.
Qed.

(** The drawing layer stays on the map as long as the layer collection is
    not touched and layer objects keep their source. *)
Lemma has_freehand_kept (st st' : App) :
  (∀ m, map st = Some m → ∃ m', map st' = Some m' ∧ layers m' = layers m) →
  vectorSource st' = vectorSource st →
  (∀ l L, layer_store st !! l = Some L →
          ∃ L', layer_store st' !! l = Some L' ∧ source L' = source L) →
  has_freehand st → has_freehand st'.
Proof.
  intros Hmap Hvs Hstore (m & l & L & Hm & Hin & Hl & Hsrc).
  destruct (Hmap m Hm) as (m' & Hm' & Hlay).
  destruct (Hstore l L Hl) as (L' & Hl' & Hsrc').
  exists m', l, L'. rewrite Hlay, Hvs, Hsrc'. done.
Qed.

(** ** Each handler keeps the state well formed *)

Lemma addDrawInteraction_draws (type : string) (st st' : App) (m : OlMap) :
  wf st → map st = Some m → addDrawInteraction type st = Some st' →
  ∃ m', map st' = Some m' ∧
        draws m' = [Draw (next st) (vectorSource st) type] ∧
        edits m' = edits m ∧ layers m' = layers m ∧
        drawInteraction st' = Some (Draw (next st) (vectorSource st) type).
Proof.
  intros Hwf Hm H. unfold addDrawInteraction in H. rewrite Hm in H.
  injection H as <-. eexists. split; [done|]. simpl.
  pose proof (wf_draws st Hwf m Hm) as Hd. unfold draws in *.
  unfold edits. destruct (drawInteraction st) as [d|] eqn:E; simpl in *.
  - rewrite !filter_app, (draws_remove d _ Hd), edits_remove.
    + split_and!; try done. by rewrite app_nil_r.
    + destruct (wf_draw_source st Hwf d E) as (? & ? & ->). done.
  - rewrite !filter_app, Hd. split_and!; try done. by rewrite app_nil_r.
Qed.

Lemma addDrawInteraction_wf (type : string) (st st' : App) :
  wf st → addDrawInteraction type st = Some st' → wf st'.
Proof.
  intros Hwf H. destruct (wf_map st Hwf) as [m Hm].
  destruct (addDrawInteraction_draws type st st' m Hwf Hm H)
    as (m' & Hm' & Hd' & _ & _ & Hdi).
  unfold addDrawInteraction in H. rewrite Hm in H. injection H as <-.
  destruct Hwf as [_ Hd Hs Ht Hl Hsrc Hv]. split; simpl in *; try done.
  - intros m0 Hm0. rewrite Hm0 in Hm'. injection Hm' as ->. done.
  - intros d [= <-]. eauto.
  - intros l Hin. apply Hl in Hin. lia.
  - intros s Hin. apply Hsrc in Hin. lia.
Qed.

Lemma finishDrawing_installed (id src : ref) (type : string) (f : feature)
    (st : App) (m : OlMap) :
  map st = Some m → Draw id src type ∈ interactions m →
  finishDrawing (Draw id src type) f st
  = Some (addFeature src f
            (setDrawInteraction None
               (setMap (Some (removeInteraction (Draw id src type) m)) st))).
Proof.
  intros Hm Hin. unfold finishDrawing, drawend. rewrite Hm.
  rewrite decide_True by done. done.
Qed.

Lemma finishDrawing_idle (draw : interaction) (f : feature) (st : App) (m : OlMap) :
  map st = Some m → draw ∉ interactions m →
  finishDrawing draw f st = Some st.
Proof.
  intros Hm Hin. unfold finishDrawing. rewrite Hm.
  destruct draw; try done. by rewrite decide_False.
Qed.

Lemma installed_draw_tracked (st : App) (m : OlMap) (d : interaction) :
  wf st → map st = Some m → d ∈ interactions m → is_draw d →
  drawInteraction st = Some d.
Proof.
  intros Hwf Hm Hin Hd.
  assert (d ∈ draws m) as Hf by (apply list_elem_of_filter; done).
  rewrite (wf_draws st Hwf m Hm) in Hf.
  destruct (drawInteraction st) as [d'|]; simpl in Hf.
  - apply list_elem_of_singleton in Hf. by subst.
  - by apply elem_of_nil in Hf.
Qed.

Lemma finishDrawing_wf (draw : interaction) (f : feature) (st st' : App) :
  wf st → finishDrawing draw f st = Some st' → wf st'.
Proof.
  intros Hwf H. destruct (wf_map st Hwf) as [m Hm].
  destruct (decide (draw ∈ interactions m)) as [Hin|Hin];
    [|rewrite (finishDrawing_idle draw f st m Hm Hin) in H; by injection H as <-].
  destruct draw as [id src type| |];
    [|unfold finishDrawing in H; rewrite Hm in H; by injection H as <-..].
  pose proof (installed_draw_tracked st m _ Hwf Hm Hin I) as Htr.
  rewrite (finishDrawing_installed id src type f st m Hm Hin) in H.
  injection H as <-.
  pose proof (wf_draws st Hwf m Hm) as Hdm. rewrite Htr in Hdm.
  destruct Hwf as [_ Hd Hs Ht Hl Hsrc Hv]. split; simpl in *; try done.
  - intros m0 [= <-]. unfold draws in *. simpl. by apply draws_remove.
  - intros s. rewrite lookup_alter. case_decide; [subst|by apply Hsrc].
    intros Hx. apply Hsrc. by apply fmap_is_Some in Hx.
  - rewrite lookup_alter. case_decide; [|done].
    subst. by apply fmap_is_Some.
Qed.

Lemma handleModifyFeatures_wf (st st' : App) :
  wf st → handleModifyFeatures st = Some st' → wf st'.
Proof.
  intros Hwf H. destruct (wf_map st Hwf) as [m Hm].
  unfold handleModifyFeatures in H. rewrite Hm in H. injection H as <-.
  pose proof (wf_draws st Hwf m Hm) as Hdm.
  destruct Hwf as [_ Hd Hs Ht Hl Hsrc Hv]. split; simpl in *; try done.
  - intros m0 [= <-]. unfold draws in *. simpl.
    rewrite filter_app, Hdm. apply app_nil_r.
  - intros l Hin. apply Hl in Hin. lia.
  - intros s Hin. apply Hsrc in Hin. lia.
Qed.

Lemma handleTranslateFeatures_wf (st st' : App) :
  wf st → handleTranslateFeatures st = Some st' → wf st'.
Proof.
  intros Hwf H. destruct (wf_map st Hwf) as [m Hm].
  unfold handleTranslateFeatures in H. rewrite Hm in H. injection H as <-.
  pose proof (wf_draws st Hwf m Hm) as Hdm.
  destruct Hwf as [_ Hd Hs Ht Hl Hsrc Hv]. split; simpl in *; try done.
  - intros m0 [= <-]. unfold draws in *. simpl.
    rewrite filter_app, Hdm. apply app_nil_r.
  - intros l Hin. apply Hl in Hin. lia.
  - intros s Hin. apply Hsrc in Hin. lia.
Qed.

Lemma reader_onload_wf (captured : list ref) (features : list feature) (st : App) :
  wf st → ∃ st', reader_onload captured features st = Some st' ∧ wf st'.
Proof.
  intros Hwf. destruct (wf_map st Hwf) as [m Hm].
  unfold reader_onload. simpl. rewrite Hm. eexists. split; [done|].
  pose proof (wf_draws st Hwf m Hm) as Hdm.
  destruct Hwf as [_ Hd Hs Ht Hl Hsrc Hv]. split; simpl in *; try done.
  - intros m0 [= <-]. done.
  - intros l. rewrite lookup_insert. case_decide as H1; [lia|].
    intros Hin. apply Hl in Hin. lia.
  - intros s. rewrite lookup_insert. case_decide as H1; [lia|].
    intros Hin. apply Hsrc in Hin. lia.
  - rewrite lookup_insert. case_decide; done.
Qed.

Lemma handleShowHideAll_wf (st : App) :
  wf st → wf (handleShowHideAll st).
Proof.
  intros [Hm Hd Hs Ht Hl Hsrc Hv]. split; simpl; try done.
  intros l. rewrite lookup_setVisible_all.
  case_decide; [|by apply Hl]. intros Hx. apply Hl.
  by apply fmap_is_Some in Hx.
Qed.

Lemma handleShowHideAll_has_freehand (st : App) :
  has_freehand st → has_freehand (handleShowHideAll st).
Proof.
  apply has_freehand_kept; simpl; [eauto|done|].
  intros l L Hl.
  destruct (decide (l ∈ geoJsonLayers st)) as [Hin|Hin].
  - exists (setVisible (negb (showAllLayers st)) L).
    rewrite lookup_setVisible_all. case_decide; [|done]. by rewrite Hl.
  - exists L. rewrite lookup_setVisible_all. case_decide; done.
Qed.

Lemma handleLayerAction_cases (action : string) (layer : ref) (st st' : App) :
  handleLayerAction action layer st = Some st' →
  (action = "delete" ∧ ∃ m, map st = Some m ∧ st' = deleted layer m st)
  ∨ (action = "showHide" ∧
     ∃ L, layer_store st !! layer = Some L ∧
          st' = set_layer_store
                  (<[layer := setVisible (negb (visible L)) L]> (layer_store st)) st)
  ∨ (action ≠ "delete" ∧ action ≠ "showHide" ∧ st' = st).
Proof.
  intros H. unfold handleLayerAction in H.
  destruct (String.eqb_spec action "zoom") as [->|Hz].
  { right. right. split; [done|]. split; [done|].
    destruct (map st); [|done].
    destruct (layer_store st !! layer) as [L|]; [|done]. simpl in H.
    destruct (source L) as [| |s]; try done.
    destruct (source_store st !! s) as [[|f fs]|]; try done.
    by injection H as <-. }
  destruct (String.eqb_spec action "delete") as [->|Hd].
  { left. split; [done|]. destruct (map st) as [m|]; [|done].
    injection H as <-. by exists m. }
  destruct (String.eqb_spec action "download") as [->|Ho].
  { right. right. split; [done|]. split; [done|].
    destruct (download_layer layer st); [|done]. by injection H as <-. }
  destruct (String.eqb_spec action "showHide") as [->|Hs].
  { right. left. split; [done|].
    destruct (layer_store st !! layer) as [L|]; [|done].
    injection H as <-. by exists L. }
  right. right. by injection H as <-.
Qed.

Lemma handleLayerAction_wf (action : string) (layer : ref) (st st' : App) :
  wf st → handleLayerAction action layer st = Some st' → wf st'.
Proof.
  intros Hwf H.
  destruct (handleLayerAction_cases _ _ _ _ H)
    as [(_ & m & Hm & ->)|[(_ & L & HL & ->)|(_ & _ & ->)]]; [| |done].
  - pose proof (wf_draws st Hwf m Hm) as Hdm.
    destruct Hwf as [_ Hd Hs Ht Hl Hsrc Hv]. split; simpl in *; try done.
    intros m0 [= <-]. done.
  - destruct Hwf as [Hm Hd Hs Ht Hl Hsrc Hv]. split; simpl in *; try done.
    intros l. rewrite lookup_insert. case_decide; [subst|by apply Hl].
    intros _. apply Hl. by exists L.
Qed.

Lemma handleLayerAction_has_freehand (action : string) (layer : ref) (st st' : App) :
  String.eqb action "delete" = false →
  handleLayerAction action layer st = Some st' →
  has_freehand st → has_freehand st'.
Proof.
  intros Hdel H.
  destruct (handleLayerAction_cases _ _ _ _ H)
    as [(-> & _)|[(_ & L & HL & ->)|(_ & _ & ->)]]; [done| |done].
  apply has_freehand_kept; simpl; [eauto|done|].
  intros l L' Hl. rewrite lookup_insert. case_decide; [subst|eauto].
  rewrite HL in Hl. injection Hl as <-. eauto.
Qed.

Lemma handleStyleChange_wf (layer : ref) (property value : string) (st st' : App) :
  wf st → handleStyleChange layer property value st = Some st' → wf st'.
Proof.
  intros Hwf H. unfold handleStyleChange in H.
  destruct (layer_store st !! layer) as [L|] eqn:HL; [|done].
  destruct (style L); [done|done| |]; injection H as <-;
    destruct Hwf as [Hm Hd Hs Ht Hl Hsrc Hv]; split; simpl in *; try done;
    intros l; rewrite lookup_insert; (case_decide; [subst|by apply Hl]);
    intros _; apply Hl; by exists L.
Qed.

Lemma handleStyleChange_has_freehand (layer : ref) (property value : string)
    (st st' : App) :
  handleStyleChange layer property value st = Some st' →
  has_freehand st → has_freehand st'.
Proof.
  intros H. unfold handleStyleChange in H.
  destruct (layer_store st !! layer) as [L|] eqn:HL; [|done].
  destruct (style L); [done|done| |]; injection H as <-;
    (apply has_freehand_kept; simpl; [eauto|done|]);
    intros l L' Hl; rewrite lookup_insert; (case_decide; [subst|eauto]);
    rewrite HL in Hl; injection Hl as <-; eauto.
Qed.

(** ** The invariant of a session *)

Lemma layers_effect_layerType (st st' : App) (m : OlMap) :
  map st = Some m → layers_effect st = Some st' →
  layerType st = "osm" ∨ layerType st = "satellite".
Proof.
  intros Hm H. unfold layers_effect in H. rewrite Hm in H.
  destruct (String.eqb (layerType st) "osm") eqn:E1;
    [left; by apply String.eqb_eq|].
  destruct (String.eqb (layerType st) "satellite") eqn:E2;
    [right; by apply String.eqb_eq|done].
Qed.

Lemma handleLayerChange_wf (value : string) (st : App) :
  wf st → value = "osm" ∨ value = "satellite" →
  wf (handleLayerChange value st).
Proof. intros [Hm Hd Hs Ht Hl Hsrc Hv] Hval. split; simpl; done. Qed.

Lemma mount_inv (st : App) : mount initial = Some st → inv st.
Proof.
  intros H. unfold mount in H.
  assert (wf (mount_effect initial)) as Hwf.
  { split; simpl; try done.
    - intros m [= <-]. done.
    - by left.
    - intros l. rewrite !lookup_insert.
      case_decide; [lia|]. case_decide; [lia|].
      rewrite lookup_empty. by intros [? ?].
    - intros s. rewrite lookup_singleton. case_decide; [lia|].
      by intros [? ?]. }
  destruct (layers_effect_wf _ Hwf) as (st' & Hst' & ? & ?).
  rewrite Hst' in H. injection H as <-. done.
Qed.

Lemma step_inv (ev : event) (st st' : App) :
  inv st → step ev st = Some st' → inv st'.
Proof.
  intros [Hwf Hfh] H. destruct (wf_map st Hwf) as [m Hm].
  destruct ev as [value|type|draw f| | |captured features| |action layer
                 |layer property value|]; simpl in H; last done.
  - destruct (String.eqb value (layerType st)) eqn:E.
    + injection H as <-. apply String.eqb_eq in E. split.
      * apply handleLayerChange_wf; [done|]. rewrite E. by apply wf_layerType.
      * revert Hfh. apply has_freehand_kept; simpl; eauto.
    + pose proof (layers_effect_layerType (handleLayerChange value st) st' m Hm H)
        as Hval.
      destruct (layers_effect_wf (handleLayerChange value st)) as (st1 & H1 & ?).
      { by apply handleLayerChange_wf. }
      rewrite H1 in H. by injection H as <-.
  - split; [by eapply addDrawInteraction_wf|].
    destruct (addDrawInteraction_draws type st st' m Hwf Hm H)
      as (m' & Hm' & _ & _ & Hlay & _).
    unfold addDrawInteraction in H. rewrite Hm in H. injection H as <-.
    revert Hfh. apply has_freehand_kept; simpl in *; eauto.
    intros m0 Hm0. rewrite Hm0 in Hm. injection Hm as ->. eauto.
  - split; [by eapply finishDrawing_wf|].
    destruct (decide (draw ∈ interactions m)) as [Hin|Hin];
      [|rewrite (finishDrawing_idle draw f st m Hm Hin) in H; by injection H as <-].
    destruct draw as [id src type| |];
      [|unfold finishDrawing in H; rewrite Hm in H; by injection H as <-..].
    rewrite (finishDrawing_installed id src type f st m Hm Hin) in H.
    injection H as <-.
    revert Hfh. apply has_freehand_kept; simpl; eauto.
    intros m0 Hm0. rewrite Hm0 in Hm. injection Hm as ->. eauto.
  - split; [by eapply handleModifyFeatures_wf|].
    unfold handleModifyFeatures in H. rewrite Hm in H. injection H as <-.
    revert Hfh. apply has_freehand_kept; simpl; eauto.
    intros m0 Hm0. rewrite Hm0 in Hm. injection Hm as ->. eauto.
  - split; [by eapply handleTranslateFeatures_wf|].
    unfold handleTranslateFeatures in H. rewrite Hm in H. injection H as <-.
    revert Hfh. apply has_freehand_kept; simpl; eauto.
    intros m0 Hm0. rewrite Hm0 in Hm. injection Hm as ->. eauto.
  - destruct (reader_onload_wf captured features st Hwf) as (st1 & H1 & Hwf1).
    rewrite H1 in H. simpl in H.
    destruct (layers_effect_wf st1 Hwf1) as (st2 & H2 & ?).
    rewrite H2 in H. by injection H as <-.
  - injection H as <-. split.
    + by apply handleShowHideAll_wf.
    + by apply handleShowHideAll_has_freehand.
  - destruct (handleLayerAction action layer st) as [st1|] eqn:H1; [|done].
    simpl in H. pose proof (handleLayerAction_wf _ _ _ _ Hwf H1) as Hwf1.
    destruct (String.eqb action "delete") eqn:E.
    + destruct (layers_effect_wf st1 Hwf1) as (st2 & H2 & ?).
      rewrite H2 in H. by injection H as <-.
    + injection H as <-. split; [done|].
      by eapply handleLayerAction_has_freehand.
  - split.
    + by eapply handleStyleChange_wf.
    + by eapply handleStyleChange_has_freehand.
Qed.

Lemma reachable_inv (st : App) : reachable st → inv st.
Proof.
  induction 1 as [st H|st ev st' _ IH H].
  - by apply mount_inv.
  - by eapply step_inv.
Qed.

Lemma reachable_run (evs : list event) (st st' : App) :
  reachable st → run evs st = Some st' → reachable st'.
Proof.
  revert st. induction evs as [|ev evs IH]; intros st Hr H; simpl in H.
  - by injection H as <-.
  - destruct (step ev st) as [st1|] eqn:E; [|done]. simpl in H.
    apply (IH st1); [|done]. by eapply reachable_step.
Qed.

Lemma reachable_session (evs : list event) (st : App) :
  session evs = Some st → reachable st.
Proof.
  unfold session. destruct (mount initial) as [st0|] eqn:E; [|done].
  simpl. apply reachable_run. by apply reachable_mount.
Qed.

(** No handler removes a Modify or Translate interaction from the map. *)
Lemma step_keeps_edit (ev : event) (st st' : App) (m : OlMap) (i : interaction) :
  inv st → map st = Some m → i ∈ interactions m → ¬ is_draw i →
  step ev st = Some st' →
  ∃ m', map st' = Some m' ∧ i ∈ interactions m'.
Proof.
  intros [Hwf Hfh] Hm Hin Hnd H.
  assert (∀ d, is_draw d → i ∈ interactions (removeInteraction d m)) as Hrem.
  { intros d Hd. simpl. apply list_elem_of_filter. split; [|done].
    intros ->. done. }
  assert (∀ s s' : App, map s = Some m → wf s → layers_effect s = Some s' →
            ∃ m', map s' = Some m' ∧ i ∈ interactions m') as Heff.
  { intros s s' Hs Hwfs Hs'.
    destruct (layers_effect_rebuilt s m Hs (wf_layerType s Hwfs)) as (t & _ & Ht).
    rewrite Ht in Hs'. injection Hs' as <-. simpl. eauto. }
  destruct ev as [value|type|draw f| | |captured features| |action layer
                 |layer property value|]; simpl in H; last done.
  - destruct (String.eqb value (layerType st)) eqn:E.
    + injection H as <-. simpl. eauto.
    + apply (Heff (handleLayerChange value st) st'); [done| |done].
      apply handleLayerChange_wf; [done|].
      by apply (layers_effect_layerType (handleLayerChange value st) st' m).
  - unfold addDrawInteraction in H. rewrite Hm in H. injection H as <-.
    simpl. eexists. split; [done|]. simpl. apply elem_of_app. left.
    destruct (drawInteraction st) as [d|] eqn:E; [|done].
    apply Hrem. destruct (wf_draw_source st Hwf d E) as (? & ? & ->). done.
  - destruct (decide (draw ∈ interactions m)) as [Hd|Hd];
      [|rewrite (finishDrawing_idle draw f st m Hm Hd) in H; injection H as <-; eauto].
    destruct draw as [id src type| |];
      [|unfold finishDrawing in H; rewrite Hm in H; injection H as <-; eauto..].
    rewrite (finishDrawing_installed id src type f st m Hm Hd) in H.
    injection H as <-. simpl. eexists. split; [done|]. by apply Hrem.
  - unfold handleModifyFeatures in H. rewrite Hm in H. injection H as <-.
    simpl. eexists. split; [done|]. simpl. apply elem_of_app. by left.
  - unfold handleTranslateFeatures in H. rewrite Hm in H. injection H as <-.
    simpl. eexists. split; [done|]. simpl. apply elem_of_app. by left.
  - destruct (reader_onload_wf captured features st Hwf) as (st1 & H1 & Hwf1).
    rewrite H1 in H. simpl in H.
    unfold reader_onload in H1. simpl in H1. rewrite Hm in H1. injection H1 as <-.
    match type of H with layers_effect ?s = _ =>
      destruct (layers_effect_rebuilt s (addLayer (S (next st)) m) eq_refl
                  (wf_layerType s Hwf1)) as (t & _ & Ht)
    end.
    rewrite Ht in H. injection H as <-. simpl. eauto.
  - injection H as <-. simpl. eauto.
  - destruct (handleLayerAction action layer st) as [st1|] eqn:H1; [|done].
    simpl in H. pose proof (handleLayerAction_wf _ _ _ _ Hwf H1) as Hwf1.
    destruct (handleLayerAction_cases _ _ _ _ H1)
      as [(-> & m0 & Hm0 & ->)|[(-> & L & HL & ->)|(Hd & _ & ->)]].
    + rewrite Hm in Hm0. injection Hm0 as <-. simpl in H.
      match type of H with layers_effect ?s = _ =>
        destruct (layers_effect_rebuilt s (removeLayer layer m) eq_refl
                    (wf_layerType s Hwf1)) as (t & _ & Ht)
      end.
      rewrite Ht in H. injection H as <-. simpl. eauto.
    + simpl in H. injection H as <-. simpl. eauto.
    + rewrite (proj2 (String.eqb_neq _ _) Hd) in H. injection H as <-. eauto.
  - unfold handleStyleChange in H.
    destruct (layer_store st !! layer) as [L|]; [|done].
    destruct (style L); [done|done| |]; injection H as <-; simpl; eauto.
Qed.


(** ** Interaction controller *)

(** C1, as stated, fails: after "Modify Features" and then "Translate
    Features" both interactions are installed on the map; the second call
    removed nothing. *)
Lemma C1_modify_then_translate :
  installed [ModifyButton; TranslateButton] = Some [Modify 5 0; Translate 6 []]
  ∧ ¬ length [Modify 5 0; Translate 6 []] ≤ 1.
Proof. split; [by vm_compute|simpl; lia]. Qed.

(** C1, amended: in every state of a session at most one Draw interaction
    is installed; [addDrawInteraction] removes the Draw interaction
    installed before and leaves its own as the only one, keeping the Modify
    and Translate interactions; [handleModifyFeatures] and
    [handleTranslateFeatures] add their interaction to those installed and
    remove none; no event at all takes a Modify or Translate interaction
    off the map. *)
Theorem C1_draw_exclusive (st : App) :
  reachable st →
  ∃ m, map st = Some m ∧ length (draws m) ≤ 1 ∧
    (∀ type, ∃ st' m',
        addDrawInteraction type st = Some st' ∧ map st' = Some m' ∧
        draws m' = [Draw (next st) (vectorSource st) type] ∧
        edits m' = edits m) ∧
    (∃ st' m',
        handleModifyFeatures st = Some st' ∧ map st' = Some m' ∧
        interactions m' = interactions m ++ [Modify (next st) (vectorSource st)]) ∧
    (∃ st' m',
        handleTranslateFeatures st = Some st' ∧ map st' = Some m' ∧
        interactions m' = interactions m
                          ++ [Translate (next st) (getFeatures (vectorSource st) st)]) ∧
    (∀ ev st' i, step ev st = Some st' → i ∈ edits m →
                 ∃ m', map st' = Some m' ∧ i ∈ edits m').
Proof.
  intros Hr. pose proof (reachable_inv st Hr) as Hinv.
  destruct Hinv as [Hwf Hfh]. destruct (wf_map st Hwf) as [m Hm].
  exists m. split_and!; [done| | | | |].
  - rewrite (wf_draws st Hwf m Hm). destruct (drawInteraction st); simpl; lia.
  - intros type.
    destruct (addDrawInteraction type st) as [st'|] eqn:E;
      [|unfold addDrawInteraction in E; by rewrite Hm in E].
    destruct (addDrawInteraction_draws type st st' m Hwf Hm E)
      as (m' & ? & ? & ? & _).
    by exists st', m'.
  - unfold handleModifyFeatures. rewrite Hm. by eexists _, _.
  - unfold handleTranslateFeatures. rewrite Hm. by eexists _, _.
  - intros ev st' i Hstep [Hnd Hin]%list_elem_of_filter.
    destruct (step_keeps_edit ev st st' m i (conj Hwf Hfh) Hm Hin Hnd Hstep)
      as (m' & Hm' & Hin').
    exists m'. split; [done|]. by apply list_elem_of_filter.
Qed.

Lemma C1_draw_exclusive_witness :
  reachable (state_after [ModifyButton; DrawButton "Point"; DrawButton "Polygon"])
  ∧ installed [ModifyButton; DrawButton "Point"; DrawButton "Polygon"]
    = Some [Modify 5 0; Draw 7 0 "Polygon"]
  ∧ ∃ m, map (state_after [ModifyButton; DrawButton "Point"; DrawButton "Polygon"])
         = Some m ∧ length (draws m) ≤ 1.
Proof.
  assert (reachable (state_after [ModifyButton; DrawButton "Point"; DrawButton "Polygon"]))
    as Hr by (apply (reachable_session [ModifyButton; DrawButton "Point"; DrawButton "Polygon"]);
              vm_compute; reflexivity).
  split; [exact Hr|]. split; [vm_compute; reflexivity|].
  destruct (C1_draw_exclusive _ Hr) as (m & Hm & Hlen & _).
  exists m. split; [exact Hm|exact Hlen].
Defined.

(** C7: when the user completes a shape on the installed Draw interaction,
    whatever its geometry type, the feature is appended to the features of
    the Geometry Store, no Draw interaction is left on the map and
    [drawInteraction] is [null] again; from then on a completed shape has
    no interaction to arrive at, until [addDrawInteraction] is called
    again. *)
Theorem C7_draw_one_shot (st : App) (m : OlMap) (id src : ref) (type : string)
    (f : feature) :
  reachable st → map st = Some m → Draw id src type ∈ interactions m →
  ∃ st' m',
    step (ShapeCompleted (Draw id src type) f) st = Some st' ∧
    src = vectorSource st ∧ vectorSource st' = vectorSource st ∧
    getFeatures (vectorSource st') st' = getFeatures (vectorSource st) st ++ [f] ∧
    map st' = Some m' ∧ draws m' = [] ∧ drawInteraction st' = None ∧
    (∀ draw f', step (ShapeCompleted draw f') st' = Some st') ∧
    (∀ type', ∃ st'' m'',
        addDrawInteraction type' st' = Some st'' ∧ map st'' = Some m'' ∧
        draws m'' = [Draw (next st') (vectorSource st') type']).
Proof.
  intros Hr Hm Hin.
  assert (reachable_after : ∀ st', step (ShapeCompleted (Draw id src type) f) st = Some st' →
                                   reachable st') by (intros; by eapply reachable_step).
  destruct (reachable_inv st Hr) as [Hwf _].
  pose proof (installed_draw_tracked st m _ Hwf Hm Hin I) as Htr.
  destruct (wf_draw_source st Hwf _ Htr) as (id' & type' & [= -> -> ->]).
  pose proof (wf_draws st Hwf m Hm) as Hdm. rewrite Htr in Hdm. simpl in Hdm.
  destruct (wf_vectorSource st Hwf) as [fs Hfs].
  simpl in reachable_after. simpl.
  rewrite (finishDrawing_installed _ _ _ f st m Hm Hin) in *.
  specialize (reachable_after _ eq_refl).
  destruct (reachable_inv _ reachable_after) as [Hwf' _].
  eexists _, _. split; [done|]. simpl.
  assert (draws (removeInteraction (Draw id' (vectorSource st) type') m) = []) as Hnone
    by (by apply draws_remove).
  split_and!; try done.
  - unfold getFeatures. simpl. by rewrite lookup_alter_eq, Hfs.
  - intros draw f'. destruct draw as [i s t| |]; [|done..].
    apply (finishDrawing_idle _ f' _ (removeInteraction (Draw id' (vectorSource st) type') m));
      [done|].
    intros Hd.
    assert (Draw i s t ∈ draws (removeInteraction (Draw id' (vectorSource st) type') m)) as Hx
      by (apply list_elem_of_filter; done).
    rewrite Hnone in Hx. by apply elem_of_nil in Hx.
  - intros type0.
    match goal with |- ∃ st'' m'', addDrawInteraction type0 ?s = _ ∧ _ =>
      destruct (addDrawInteraction type0 s) as [st''|] eqn:E; [|done];
      destruct (addDrawInteraction_draws type0 s st'' _ Hwf' eq_refl E)
        as (m'' & ? & ? & _)
    end.
    by exists st'', m''.
Qed.

Lemma C7_draw_one_shot_witness :
  reachable (state_after [DrawButton "LineString"])
  ∧ map (state_after [DrawButton "LineString"])
    = Some (mkMap [3; 4] [Draw 5 0 "LineString"])
  ∧ ∃ st',
      step (ShapeCompleted (Draw 5 0 "LineString") 42)
           (state_after [DrawButton "LineString"]) = Some st'
      ∧ getFeatures (vectorSource st') st'
        = getFeatures 0 (state_after [DrawButton "LineString"]) ++ [42]
      ∧ drawInteraction st' = None.
Proof.
  assert (reachable (state_after [DrawButton "LineString"])) as Hr
    by (apply (reachable_session [DrawButton "LineString"]); vm_compute; reflexivity).
  assert (map (state_after [DrawButton "LineString"])
          = Some (mkMap [3; 4] [Draw 5 0 "LineString"])) as Hm
    by (vm_compute; reflexivity).
  split; [exact Hr|]. split; [exact Hm|].
  destruct (C7_draw_one_shot _ _ 5 0 "LineString" 42 Hr Hm)
    as (st' & m' & Hstep & _ & _ & Hf & _ & _ & Hd & _).
  { simpl. left. }
  exists st'. split; [exact Hstep|]. split; [exact Hf|exact Hd].
Defined.

(** ** Layer registry *)

(** C4, as stated, fails: an imported layer hidden with its own "Hide
    Layer" button while the box is checked is visible after the box was
    toggled twice. *)
Lemma C4_hidden_layer_not_restored :
  geoJsonLayers (state_after [FileLoaded [] [7]; LayerButton "showHide" 6]) = [6]
  ∧ getVisible 6 (state_after [FileLoaded [] [7]; LayerButton "showHide" 6])
    = Some false
  ∧ getVisible 6 (handleShowHideAll (handleShowHideAll
      (state_after [FileLoaded [] [7]; LayerButton "showHide" 6])))
    = Some true.
Proof. split_and!; vm_compute; reflexivity. Qed.

(** C4, amended: one call of [handleShowHideAll] sets the visibility of
    every imported layer to the negation of [showAllLayers] as it was
    before the call and negates the flag; two calls in succession set it to
    the value the flag had before the first call, and restore the flag.  A
    layer gets back the visibility it had exactly when that visibility was
    the value of the flag. *)
Theorem C4_toggle_twice (st : App) (layer : ref) (L : Layer) :
  layer ∈ geoJsonLayers st → layer_store st !! layer = Some L →
  getVisible layer (handleShowHideAll st) = Some (negb (showAllLayers st))
  ∧ showAllLayers (handleShowHideAll st) = negb (showAllLayers st)
  ∧ getVisible layer (handleShowHideAll (handleShowHideAll st))
    = Some (showAllLayers st)
  ∧ showAllLayers (handleShowHideAll (handleShowHideAll st)) = showAllLayers st
  ∧ (getVisible layer (handleShowHideAll (handleShowHideAll st)) = getVisible layer st
     ↔ visible L = showAllLayers st).
Proof.
  intros Hin HL.
  assert (getVisible layer (handleShowHideAll (handleShowHideAll st))
          = Some (showAllLayers st)) as Htwice.
  { unfold getVisible, handleShowHideAll. simpl.
    rewrite !lookup_setVisible_all. rewrite !decide_True by done.
    rewrite HL. simpl. by rewrite negb_involutive. }
  split_and!.
  - unfold getVisible, handleShowHideAll. simpl.
    rewrite lookup_setVisible_all, decide_True by done. by rewrite HL.
  - done.
  - exact Htwice.
  - simpl. apply negb_involutive.
  - rewrite Htwice. unfold getVisible. rewrite HL. simpl.
    split; [by intros [= ->]|by intros ->].
Qed.

Lemma C4_toggle_twice_witness :
  6 ∈ geoJsonLayers (state_after [FileLoaded [] [7]])
  ∧ getVisible 6 (handleShowHideAll (handleShowHideAll
      (state_after [FileLoaded [] [7]])))
    = Some (showAllLayers (state_after [FileLoaded [] [7]])).
Proof.
  assert (6 ∈ geoJsonLayers (state_after [FileLoaded [] [7]])) as Hin
    by (vm_compute; left).
  assert (layer_store (state_after [FileLoaded [] [7]]) !! 6
          = Some (mkLayer (Vector 5) true (StyleObject import_style))) as HL
    by (vm_compute; reflexivity).
  split; [exact Hin|].
  destruct (C4_toggle_twice _ 6 _ Hin HL) as (_ & _ & Htwice & _).
  exact Htwice.
Defined.




(** C9: choosing the other basemap rebuilds the layer collection as the new
    tile layer, then a new drawing layer over the same vector source, then
    the imported layers in the order of [geoJsonLayers].  The vector
    sources and their features, the layer objects that existed, the list of
    imported layers and the installed interactions are left as they were. *)
Theorem C9_basemap_switch (st : App) (value : string) :
  reachable st → value ≠ layerType st →
  value = "osm" ∨ value = "satellite" →
  ∃ st' m m' tile,
    step (LayerChange value) st = Some st' ∧
    map st = Some m ∧ map st' = Some m' ∧
    layerType st' = value ∧
    layers m' = next st :: S (next st) :: geoJsonLayers st ∧
    layer_store st' !! next st = Some tile ∧
    source tile = (if String.eqb value "osm" then OSM else XYZ satellite_url) ∧
    layer_store st' !! S (next st) = Some (new_VectorLayer (vectorSource st)) ∧
    vectorSource st' = vectorSource st ∧
    source_store st' = source_store st ∧
    geoJsonLayers st' = geoJsonLayers st ∧
    (∀ l L, layer_store st !! l = Some L → layer_store st' !! l = Some L) ∧
    interactions m' = interactions m.
Proof.
  intros Hr Hne Hval. destruct (reachable_inv st Hr) as [Hwf _].
  destruct (wf_map st Hwf) as [m Hm]. simpl.
  rewrite (proj2 (String.eqb_neq value (layerType st)) Hne).
  unfold layers_effect. simpl. rewrite Hm.
  assert (∀ (t : Layer) (l : ref) (L : Layer), layer_store st !! l = Some L →
            <[S (next st) := new_VectorLayer (vectorSource st)]>
              (<[next st := t]> (layer_store st)) !! l = Some L) as Hold.
  { intros t l L HL.
    assert (l < next st) by (apply (wf_layers_fresh st Hwf); by exists L).
    rewrite !lookup_insert_ne by lia. done. }
  destruct Hval as [->| ->]; simpl; rewrite foldl_addLayer; simpl.
  - eexists _, m, _, (new_TileLayer OSM). split; [done|]. simpl.
    split_and!; try done.
    + rewrite lookup_insert_ne by lia. by rewrite lookup_insert_eq.
    + by rewrite lookup_insert_eq.
    + apply Hold.
  - eexists _, m, _, (new_TileLayer (XYZ satellite_url)). split; [done|]. simpl.
    split_and!; try done.
    + rewrite lookup_insert_ne by lia. by rewrite lookup_insert_eq.
    + by rewrite lookup_insert_eq.
    + apply Hold.
Qed.

Lemma C9_basemap_switch_witness :
  reachable (state_after [FileLoaded [] [7]; FileLoaded [6] [8]])
  ∧ "satellite" ≠ layerType (state_after [FileLoaded [] [7]; FileLoaded [6] [8]])
  ∧ geoJsonLayers (state_after [FileLoaded [] [7]; FileLoaded [6] [8]]) = [6; 10]
  ∧ ∃ st' m',
      step (LayerChange "satellite")
           (state_after [FileLoaded [] [7]; FileLoaded [6] [8]]) = Some st'
      ∧ map st' = Some m'
      ∧ layers m'
        = next (state_after [FileLoaded [] [7]; FileLoaded [6] [8]])
          :: S (next (state_after [FileLoaded [] [7]; FileLoaded [6] [8]]))
          :: geoJsonLayers (state_after [FileLoaded [] [7]; FileLoaded [6] [8]]).
Proof.
  assert (reachable (state_after [FileLoaded [] [7]; FileLoaded [6] [8]])) as Hr
    by (apply (reachable_session [FileLoaded [] [7]; FileLoaded [6] [8]]);
        vm_compute; reflexivity).
  assert ("satellite" ≠ layerType (state_after [FileLoaded [] [7]; FileLoaded [6] [8]]))
    as Hne by (vm_compute; discriminate).
  split; [exact Hr|]. split; [exact Hne|]. split; [vm_compute; reflexivity|].
  destruct (C9_basemap_switch _ "satellite" Hr Hne (or_intror eq_refl))
    as (st' & m & m' & tile & Hstep & _ & Hm' & _ & Hlay & _).
  exists st', m'. split; [exact Hstep|]. split; [exact Hm'|exact Hlay].
Defined.

(** ** Events, case by case *)

Lemma layers_effect_tile (st st' : App) (m : OlMap) :
  map st = Some m → layers_effect st = Some st' →
  ∃ tile, tile_for (layerType st) = Some tile ∧ st' = rebuilt tile m st.
Proof.
  intros Hm H. unfold layers_effect in H. rewrite Hm in H. unfold tile_for.
  destruct (String.eqb (layerType st) "osm").
  - simpl in H. rewrite foldl_addLayer in H. injection H as <-. eauto.
  - destruct (String.eqb (layerType st) "satellite"); [|done].
    simpl in H. rewrite foldl_addLayer in H. injection H as <-. eauto.
Qed.

Lemma tile_for_layers_effect (st : App) (m : OlMap) (tile : Layer) :
  map st = Some m → tile_for (layerType st) = Some tile →
  layers_effect st = Some (rebuilt tile m st).
Proof.
  intros Hm Ht. unfold layers_effect. rewrite Hm. unfold tile_for in Ht.
  destruct (String.eqb (layerType st) "osm").
  - injection Ht as <-. simpl. by rewrite foldl_addLayer.
  - destruct (String.eqb (layerType st) "satellite"); [|done].
    injection Ht as <-. simpl. by rewrite foldl_addLayer.
Qed.

Lemma tile_for_source (value : string) (tile : Layer) :
  tile_for value = Some tile →
  (value = "osm" ∧ tile = new_TileLayer OSM)
  ∨ (value = "satellite" ∧ tile = new_TileLayer (XYZ satellite_url)).
Proof.
  unfold tile_for. intros H.
  destruct (String.eqb value "osm") eqn:E1.
  - left. split; [by apply String.eqb_eq|congruence].
  - destruct (String.eqb value "satellite") eqn:E2; [|done].
    right. split; [by apply String.eqb_eq|congruence].
Qed.

Lemma app_eta (st : App) :
  mkApp (layer_store st) (source_store st) (next st) (map st) (layerType st)
        (drawInteraction st) (vectorSource st) (geoJsonLayers st)
        (showAllLayers st) = st.
Proof. by destruct st. Qed.

Lemma step_fired (ev : event) (st st' : App) (m : OlMap) :
  wf st → map st = Some m → step ev st = Some st' → fired st m ev st'.
Proof.
  intros Hwf Hm H.
  destruct ev as [value|type|draw f| | |captured features| |action layer
                 |layer property value|]; simpl in H; last done.
  - destruct (String.eqb value (layerType st)) eqn:E.
    + apply String.eqb_eq in E. subst value. injection H as <-.
      unfold handleLayerChange, setLayerType. rewrite app_eta. constructor.
    + apply String.eqb_neq in E.
      destruct (layers_effect_tile (handleLayerChange value st) st' m Hm H)
        as (tile & Ht & ->).
      by constructor.
  - unfold addDrawInteraction in H. rewrite Hm in H. injection H as <-. constructor.
  - destruct (decide (draw ∈ draws m)) as [Hin|Hin].
    + apply list_elem_of_filter in Hin as [Hd Hin].
      pose proof (installed_draw_tracked st m draw Hwf Hm Hin Hd) as Htr.
      destruct (wf_draw_source st Hwf draw Htr) as (id & type & ->).
      rewrite (finishDrawing_installed _ _ _ f st m Hm Hin) in H.
      injection H as <-. by constructor.
    + assert (finishDrawing draw f st = Some st) as Hidle.
      { destruct draw as [id src type| |];
          [|unfold finishDrawing; by rewrite Hm..].
        apply (finishDrawing_idle _ f st m Hm). intros Hx. apply Hin.
        by apply list_elem_of_filter. }
      rewrite Hidle in H. injection H as <-. by constructor.
  - unfold handleModifyFeatures in H. rewrite Hm in H. injection H as <-. constructor.
  - unfold handleTranslateFeatures in H. rewrite Hm in H. injection H as <-. constructor.
  - unfold reader_onload in H. simpl in H. rewrite Hm in H. simpl in H.
    match type of H with layers_effect ?s = _ =>
      destruct (layers_effect_tile s st' (addLayer (S (next st)) m) eq_refl H)
        as (tile & Ht & ->)
    end.
    by apply (fired_file st m captured features tile).
  - injection H as <-. constructor.
  - destruct (handleLayerAction action layer st) as [st1|] eqn:H1; [|done].
    simpl in H.
    destruct (handleLayerAction_cases _ _ _ _ H1)
      as [(-> & m0 & Hm0 & ->)|[(-> & L & HL & ->)|(Hd & Hs & ->)]].
    + rewrite Hm in Hm0. injection Hm0 as <-. simpl in H.
      match type of H with layers_effect ?s = _ =>
        destruct (layers_effect_tile s st' (removeLayer layer m) eq_refl H)
          as (tile & Ht & ->)
      end.
      by apply (fired_delete st m layer tile).
    + simpl in H. injection H as <-. by constructor.
    + rewrite (proj2 (String.eqb_neq _ _) Hd) in H. injection H as <-.
      by constructor.
  - unfold handleStyleChange in H.
    destruct (layer_store st !! layer) as [L|] eqn:HL; [|done].
    destruct (style L) as [| |s|] eqn:Es; [done|done| |]; injection H as <-;
      apply fired_style; congruence.
Qed.

(** ** What an event leaves of the stores *)

Lemma fired_vectorSource (ev : event) (st st' : App) (m : OlMap) :
  fired st m ev st' → vectorSource st' = vectorSource st.
Proof. by destruct 1. Qed.


Lemma fired_sources (ev : event) (st st' : App) (m : OlMap) :
  wf st → map st = Some m → fired st m ev st' →
  getFeatures (vectorSource st) st'
  = getFeatures (vectorSource st) st ++ completes ev st
  ∧ ∀ s, s ≠ vectorSource st → is_Some (source_store st !! s) →
         source_store st' !! s = source_store st !! s.
Proof.
  intros Hwf Hm Hf.
  assert (vectorSource st < next st) as Hvs
    by (apply (wf_sources_fresh st Hwf), (wf_vectorSource st Hwf)).
  destruct Hf; unfold completes, getFeatures; rewrite ?Hm; simpl;
    rewrite ?app_nil_r; try (split; [done|by intros]).
  - destruct (wf_vectorSource st Hwf) as [fs Hfs].
    rewrite decide_True by (apply list_elem_of_filter; done).
    split.
    + by rewrite lookup_alter_eq, Hfs.
    + intros s Hs _. by rewrite lookup_alter_ne.
  - rewrite decide_False by done. rewrite app_nil_r. done.
  - split.
    + by rewrite lookup_insert_ne by lia.
    + intros s _ Hs. apply (wf_sources_fresh st Hwf) in Hs.
      by rewrite lookup_insert_ne by lia.
Qed.

Lemma fired_layers (ev : event) (st st' : App) (m : OlMap) (l : ref) (L : Layer) :
  wf st → fired st m ev st' → layer_store st !! l = Some L →
  ∃ L', layer_store st' !! l = Some L' ∧ source L' = source L ∧
        (∀ s, style L = StyleObject s → ∃ s', style L' = StyleObject s') ∧
        (l ∉ touched ev st → L' = L).
Proof.
  intros Hwf Hf HL.
  assert (l < next st) as Hl by (apply (wf_layers_fresh st Hwf); by exists L).
  destruct Hf; simpl;
    try (exists L; split_and!; [done|done|eauto|done]);
    try (exists L; split_and!; [|done|eauto|done];
         rewrite !lookup_insert_ne by lia; done).
  - destruct (decide (l ∈ geoJsonLayers st)) as [Hin|Hin].
    + exists (setVisible (negb (showAllLayers st)) L).
      rewrite lookup_setVisible_all, HL. rewrite decide_True by done.
      split_and!; [done|done|eauto|done].
    + exists L. rewrite lookup_setVisible_all, HL. rewrite decide_False by done.
      split_and!; [done|done|eauto|done].
  - destruct (decide (layer = l)) as [->|Hne].
    + rewrite lookup_insert_eq. rewrite HL in H. injection H as <-.
      eexists. split_and!; [done|done|eauto|].
      intros Hn. destruct Hn. by left.
    + rewrite lookup_insert_ne by done.
      exists L. split_and!; [done|done|eauto|done].
  - destruct (decide (layer = l)) as [->|Hne].
    + rewrite lookup_insert_eq. rewrite HL in H. injection H as <-.
      eexists. split_and!; [done|done|simpl; eauto|].
      intros Hn. destruct Hn. by left.
    + rewrite lookup_insert_ne by done.
      exists L. split_and!; [done|done|eauto|done].
Qed.

Lemma step_sources (ev : event) (st st' : App) :
  reachable st → step ev st = Some st' →
  vectorSource st' = vectorSource st
  ∧ getFeatures (vectorSource st') st'
    = getFeatures (vectorSource st) st ++ completes ev st
  ∧ ∀ s, s ≠ vectorSource st → is_Some (source_store st !! s) →
         source_store st' !! s = source_store st !! s.
Proof.
  intros Hr H. destruct (reachable_inv st Hr) as [Hwf _].
  destruct (wf_map st Hwf) as [m Hm].
  pose proof (step_fired ev st st' m Hwf Hm H) as Hf.
  pose proof (fired_vectorSource ev st st' m Hf) as Hvs.
  rewrite Hvs. split; [done|]. by apply (fired_sources ev st st' m).
Qed.

Lemma run_sources (evs : list event) (st st' : App) :
  reachable st → run evs st = Some st' →
  vectorSource st' = vectorSource st
  ∧ getFeatures (vectorSource st) st `prefix_of` getFeatures (vectorSource st') st'
  ∧ ∀ s, s ≠ vectorSource st → is_Some (source_store st !! s) →
         source_store st' !! s = source_store st !! s.
Proof.
  revert st. induction evs as [|ev evs IH]; intros st Hr H; simpl in H.
  - injection H as <-. done.
  - destruct (step ev st) as [st1|] eqn:E; [|done]. simpl in H.
    destruct (step_sources ev st st1 Hr E) as (Hvs & Hfs & Hother).
    destruct (IH st1 (reachable_step st ev st1 Hr E) H) as (Hvs' & Hpre & Hother').
    split; [congruence|]. split.
    + etrans; [|exact Hpre]. rewrite Hfs. by apply prefix_app_r.
    + intros s Hs Hin. rewrite <- (Hother s Hs Hin).
      apply Hother'; [congruence|]. by rewrite (Hother s Hs Hin).
Qed.

Lemma step_layers (ev : event) (st st' : App) (l : ref) (L : Layer) :
  reachable st → step ev st = Some st' → layer_store st !! l = Some L →
  ∃ L', layer_store st' !! l = Some L' ∧ source L' = source L ∧
        (∀ s, style L = StyleObject s → ∃ s', style L' = StyleObject s') ∧
        (l ∉ touched ev st → L' = L).
Proof.
  intros Hr H. destruct (reachable_inv st Hr) as [Hwf _].
  destruct (wf_map st Hwf) as [m Hm].
  apply (fired_layers ev st st' m); [done|]. by apply step_fired.
Qed.

Lemma run_layers (evs : list event) (st st' : App) (l : ref) (L : Layer) :
  reachable st → run evs st = Some st' → layer_store st !! l = Some L →
  ∃ L', layer_store st' !! l = Some L' ∧ source L' = source L.
Proof.
  revert st L. induction evs as [|ev evs IH]; intros st L Hr H HL; simpl in H.
  - injection H as <-. eauto.
  - destruct (step ev st) as [st1|] eqn:E; [|done]. simpl in H.
    destruct (step_layers ev st st1 l L Hr E HL) as (L1 & HL1 & Hs1 & _).
    destruct (IH st1 L1 (reachable_step st ev st1 Hr E) H HL1) as (L' & HL' & Hs').
    exists L'. split; [done|congruence].
Qed.

(** ** Features *)

(** X1: the features of the Geometry Store are never removed.  An event
    leaves the store with the features it had, plus the feature of a shape
    completed on an installed Draw interaction and nothing else; after any
    run of events every earlier feature is still in the store. *)
Theorem X1_geometry_store_grows (st : App) :
  reachable st →
  (∀ ev st', step ev st = Some st' →
     vectorSource st' = vectorSource st ∧
     getFeatures (vectorSource st') st'
     ≡ₚ getFeatures (vectorSource st) st ++ completes ev st)
  ∧ (∀ evs st' f, run evs st = Some st' →
       f ∈ getFeatures (vectorSource st) st →
       f ∈ getFeatures (vectorSource st') st').
Proof.
  intros Hr. split.
  - intros ev st' H. destruct (step_sources ev st st' Hr H) as (? & -> & _). done.
  - intros evs st' f H Hf. destruct (run_sources evs st st' Hr H) as (_ & Hpre & _).
    destruct Hpre as [more ->]. apply elem_of_app. by left.
Qed.

Lemma X1_geometry_store_grows_witness :
  reachable (state_after [DrawButton "Point"; ShapeCompleted (Draw 5 0 "Point") 42;
                          DrawButton "Point"])
  ∧ ∃ st',
      step (ShapeCompleted (Draw 6 0 "Point") 43)
           (state_after [DrawButton "Point"; ShapeCompleted (Draw 5 0 "Point") 42;
                         DrawButton "Point"]) = Some st'
      ∧ getFeatures (vectorSource st') st' ≡ₚ [42; 43].
Proof.
  assert (reachable (state_after [DrawButton "Point"; ShapeCompleted (Draw 5 0 "Point") 42;
                                  DrawButton "Point"])) as Hr
    by (apply (reachable_session [DrawButton "Point"; ShapeCompleted (Draw 5 0 "Point") 42;
                                  DrawButton "Point"]); vm_compute; reflexivity).
  split; [exact Hr|].
  destruct (X1_geometry_store_grows _ Hr) as [Hstep _].
  eexists. split; [vm_compute; reflexivity|].
  match goal with |- getFeatures _ ?s ≡ₚ _ =>
    destruct (Hstep (ShapeCompleted (Draw 6 0 "Point") 43) s) as [_ Hfs];
      [vm_compute; reflexivity|]
  end.
  etrans; [exact Hfs|]. vm_compute. reflexivity.
Defined.

(** X2: an imported layer keeps the features it was imported with.  After
    an import that parsed [features], and after any events that follow, a
    download of the new layer hands exactly the features [features] to
    [writeFeatures], as a file [layer.geojson] of type
    [application/json]. *)
Theorem X2_import_then_download (st : App) (captured : list ref)
    (features : list feature) :
  reachable st →
  ∃ st1,
    step (FileLoaded captured features) st = Some st1 ∧
    ∀ evs st2, run evs st1 = Some st2 →
      ∃ d, download_layer (S (next st)) st2 = Some d ∧
           download_features d ≡ₚ features ∧
           download_type d = "application/json" ∧
           download_name d = "layer.geojson".
Proof.
  intros Hr. destruct (reachable_inv st Hr) as [Hwf _].
  destruct (wf_map st Hwf) as [m Hm].
  destruct (step (FileLoaded captured features) st) as [st1|] eqn:E.
  2:{ simpl in E. destruct (reader_onload_wf captured features st Hwf) as (s1 & H1 & Hwf1).
      rewrite H1 in E. simpl in E.
      destruct (layers_effect_wf s1 Hwf1) as (s2 & H2 & _). by rewrite H2 in E. }
  exists st1. split; [done|].
  pose proof (reachable_step st _ st1 Hr E) as Hr1.
  assert (vectorSource st < next st) as Hvs
    by (apply (wf_sources_fresh st Hwf), (wf_vectorSource st Hwf)).
  pose proof (step_fired _ st st1 m Hwf Hm E) as Hf.
  inversion Hf as [| | | | | | |c fs tile Ht| | | | |]; subst.
  intros evs st2 Hrun.
  destruct (run_layers evs _ st2 (S (next st))
              (mkLayer (Vector (next st)) true (StyleObject import_style)) Hr1 Hrun)
    as (L' & HL' & Hsrc).
  { simpl. rewrite !lookup_insert_ne by lia. by rewrite lookup_insert_eq. }
  destruct (run_sources evs _ st2 Hr1 Hrun) as (_ & _ & Hother).
  exists (mkDownload features "application/json" "layer.geojson").
  split; [|done].
  unfold download_layer. rewrite HL'. simpl. rewrite Hsrc. simpl.
  rewrite (Hother (next st)); simpl.
  - by rewrite lookup_insert_eq.
  - lia.
  - by rewrite lookup_insert_eq.
Qed.

Lemma X2_import_then_download_witness :
  reachable (state_after [])
  ∧ ∃ st1 st2 d,
      step (FileLoaded [] [7; 8]) (state_after []) = Some st1
      ∧ run [ShowHideAllBox; StyleInput 6 "color" "#000000"; LayerButton "delete" 6] st1
        = Some st2
      ∧ download_layer (S (next (state_after []))) st2 = Some d
      ∧ download_features d ≡ₚ [7; 8].
Proof.
  assert (reachable (state_after [])) as Hr
    by (apply (reachable_session []); vm_compute; reflexivity).
  split; [exact Hr|].
  destruct (X2_import_then_download _ [] [7; 8] Hr) as (st1 & Hstep & Hall).
  exists st1.
  assert (∃ st2, run [ShowHideAllBox; StyleInput 6 "color" "#000000";
                      LayerButton "delete" 6] st1 = Some st2) as (st2 & Hrun).
  { vm_compute in Hstep. injection Hstep as <-. eexists. vm_compute. reflexivity. }
  destruct (Hall _ st2 Hrun) as (d & Hd & Hfs & _).
  exists st2, d. split; [exact Hstep|]. split; [exact Hrun|].
  split; [exact Hd|exact Hfs].
Defined.

Lemma fired_interactions (ev : event) (st st' : App) (m m' : OlMap) (i : interaction) :
  fired st m ev st' → map st = Some m → map st' = Some m' →
  i ∈ interactions m' →
  i ∈ interactions m ∨ bound_to_store st i.
Proof.
  intros Hf Hm Hm' Hin.
  destruct Hf; simpl in Hm'; try rewrite Hm in Hm';
    try (injection Hm' as <-); simpl in Hin; try (by left).
  - apply elem_of_app in Hin as [Hin|Hin].
    + left. destruct (drawInteraction st); [|done].
      by apply list_elem_of_filter in Hin as [_ ?].
    + apply list_elem_of_singleton in Hin as ->. right. simpl. done.
  - left. by apply list_elem_of_filter in Hin as [_ ?].
  - apply elem_of_app in Hin as [Hin|Hin]; [by left|].
    apply list_elem_of_singleton in Hin as ->. right. simpl. done.
  - apply elem_of_app in Hin as [Hin|Hin]; [by left|].
    apply list_elem_of_singleton in Hin as ->. right. simpl. done.
Qed.

(** X3: every interaction the component has on the map edits the Geometry
    Store and nothing else: a Draw or Modify interaction is built on
    [vectorSource.current], and the features a Translate interaction was
    built with are all features of the store.  No interaction ever works on
    an imported layer. *)
Theorem X3_interactions_edit_the_store (st : App) (m : OlMap) (i : interaction) :
  reachable st → map st = Some m → i ∈ interactions m →
  bound_to_store st i.
Proof.
  intros Hr. revert m i.
  induction Hr as [st H|st ev st' Hr IH H]; intros m i Hm Hin.
  - unfold mount in H.
    destruct (layers_effect_tile (mount_effect initial) st _ eq_refl H)
      as (tile & _ & ->).
    simpl in Hm. injection Hm as <-. by apply elem_of_nil in Hin.
  - destruct (reachable_inv st Hr) as [Hwf _].
    destruct (wf_map st Hwf) as [m0 Hm0].
    pose proof (step_fired ev st st' m0 Hwf Hm0 H) as Hf.
    destruct (step_sources ev st st' Hr H) as (Hvs & Hfs & _).
    assert (bound_to_store st i) as Hb.
    { destruct (fired_interactions ev st st' m0 m i Hf Hm0 Hm Hin) as [Hold|Hnew];
        [by apply (IH m0)|done]. }
    destruct i as [id src type|id src|id fs]; simpl in *; try congruence.
    intros f Hf'. rewrite Hfs. apply elem_of_app. left. by apply Hb.
Qed.

Lemma X3_interactions_edit_the_store_witness :
  reachable (state_after [DrawButton "Point"; ShapeCompleted (Draw 5 0 "Point") 42;
                          TranslateButton; ModifyButton])
  ∧ map (state_after [DrawButton "Point"; ShapeCompleted (Draw 5 0 "Point") 42;
                      TranslateButton; ModifyButton])
    = Some (mkMap [3; 4] [Translate 6 [42]; Modify 7 0])
  ∧ bound_to_store
      (state_after [DrawButton "Point"; ShapeCompleted (Draw 5 0 "Point") 42;
                    TranslateButton; ModifyButton])
      (Translate 6 [42]).
Proof.
  assert (reachable (state_after [DrawButton "Point"; ShapeCompleted (Draw 5 0 "Point") 42;
                                  TranslateButton; ModifyButton])) as Hr
    by (apply (reachable_session [DrawButton "Point"; ShapeCompleted (Draw 5 0 "Point") 42;
                                  TranslateButton; ModifyButton]);
        vm_compute; reflexivity).
  assert (map (state_after [DrawButton "Point"; ShapeCompleted (Draw 5 0 "Point") 42;
                            TranslateButton; ModifyButton])
          = Some (mkMap [3; 4] [Translate 6 [42]; Modify 7 0])) as Hm
    by (vm_compute; reflexivity).
  split; [exact Hr|]. split; [exact Hm|].
  apply (X3_interactions_edit_the_store _ _ _ Hr Hm). left.
Defined.

(** ** Sessions driven through the page *)

Lemma ui_session_reachable (h : list (list ref)) (st : App) :
  ui_session h st → reachable st.
Proof.
  induction 1 as [st H|h st ev st' _ IH _ H].
  - by apply reachable_mount.
  - by apply (reachable_step st ev).
Qed.

Lemma fired_layout (ev : event) (st st' : App) (m : OlMap) :
  fired st m ev st' → map st = Some m →
  ∃ m', map st' = Some m' ∧
    ((∃ tile n, tile_for (layerType st') = Some tile ∧
                layers m' = n :: S n :: geoJsonLayers st' ∧
                layer_store st' !! n = Some tile ∧
                layer_store st' !! S n = Some (new_VectorLayer (vectorSource st')))
     ∨ (layers m' = layers m ∧ geoJsonLayers st' = geoJsonLayers st ∧
        layerType st' = layerType st)).
Proof.
  intros Hf Hm.
  destruct Hf; simpl; rewrite ?Hm;
    try (eexists; split; [done|]; right; by destruct (drawInteraction st)).
  - eexists. split; [done|]. left. exists tile, (next st). simpl.
    split_and!; try done.
    + rewrite lookup_insert_ne by lia. by rewrite lookup_insert_eq.
    + by rewrite lookup_insert_eq.
  - eexists. split; [done|]. left. exists tile, (S (S (next st))). simpl.
    split_and!; try done.
    + rewrite lookup_insert_ne by lia. by rewrite lookup_insert_eq.
    + by rewrite lookup_insert_eq.
  - eexists. split; [done|]. left. exists tile, (next st). simpl.
    split_and!; try done.
    + rewrite lookup_insert_ne by lia. by rewrite lookup_insert_eq.
    + by rewrite lookup_insert_eq.
Qed.

Lemma fired_registry (ev : event) (st st' : App) (m : OlMap) :
  fired st m ev st' →
  geoJsonLayers st' = geoJsonLayers st
  ∨ (∃ captured features,
       ev = FileLoaded captured features ∧
       geoJsonLayers st' = captured ++ [S (next st)] ∧
       layer_store st' !! S (next st)
       = Some (mkLayer (Vector (next st)) true (StyleObject import_style)) ∧
       source_store st' !! next st = Some features)
  ∨ (∃ layer, ev = LayerButton "delete" layer ∧
              geoJsonLayers st' = filter (λ l, l ≠ layer) (geoJsonLayers st)).
Proof.
  destruct 1; simpl; try (by left).
  - right. left. exists captured, features. split_and!; try done.
    + rewrite !lookup_insert_ne by lia. by rewrite lookup_insert_eq.
    + by rewrite lookup_insert_eq.
  - right. right. by exists layer.
Qed.

Lemma offered_touched (h : list (list ref)) (st : App) (ev : event) (l : ref) :
  offered h st ev → l ∈ touched ev st → l ∈ geoJsonLayers st.
Proof.
  destruct ev as [value|type|draw f| | |captured features| |action layer
                 |layer property value|]; simpl; intros Ho Hin;
    try (by apply elem_of_nil in Hin); try done.
  - destruct (String.eqb action "showHide"); [|by apply elem_of_nil in Hin].
    apply list_elem_of_singleton in Hin as ->. by destruct Ho.
  - apply list_elem_of_singleton in Hin as ->. by destruct Ho.
Qed.

Lemma imported_layer_kept (ev : event) (st st' : App) (l : ref) :
  reachable st → step ev st = Some st' →
  imported_layer st l → imported_layer st' l.
Proof.
  intros Hr H (L & s & sty & HL & Hsrc & Hsty & Hne & Hs).
  destruct (step_layers ev st st' l L Hr H HL) as (L' & HL' & Hsrc' & Hsty' & _).
  destruct (Hsty' sty Hsty) as [sty' Hsty''].
  destruct (step_sources ev st st' Hr H) as (Hvs & _ & Hother).
  exists L', s, sty'. split_and!; try done; try congruence.
  by rewrite (Hother s Hne Hs).
Qed.

Lemma imported_layer_allocated (st : App) (l : ref) :
  wf st → imported_layer st l → l < next st.
Proof.
  intros Hwf (L & _ & _ & HL & _). apply (wf_layers_fresh st Hwf). by exists L.
Qed.

Lemma ui_session_inv (h : list (list ref)) (st : App) :
  ui_session h st → ui_inv h st.
Proof.
  induction 1 as [st H|h st ev st' Hs IH Ho H].
  - unfold mount in H.
    destruct (layers_effect_tile (mount_effect initial) st _ eq_refl H)
      as (tile & Ht & ->).
    split; simpl.
    + by left.
    + intros g Hg. apply list_elem_of_singleton in Hg as ->.
      split; [constructor|]. intros l Hl. by apply elem_of_nil in Hl.
    + eexists _, 3, 4, tile. split_and!; try done.
  - pose proof (ui_session_reachable h st Hs) as Hr.
    destruct (reachable_inv st Hr) as [Hwf _].
    destruct (wf_map st Hwf) as [m Hm].
    pose proof (step_fired ev st st' m Hwf Hm H) as Hf.
    pose proof (fired_vectorSource ev st st' m Hf) as Hvs.
    destruct IH as [Hcur Hlists Hmap].
    assert (∀ g, g ∈ h → NoDup g ∧ ∀ l, l ∈ g → imported_layer st' l) as Hold.
    { intros g Hg. destruct (Hlists g Hg) as [Hnd Himp]. split; [done|].
      intros l Hl. apply (imported_layer_kept ev st st' l Hr H). by apply Himp. }
    split.
    + by left.
    + intros g Hg. apply elem_of_cons in Hg as [->|Hg]; [|by apply Hold].
      destruct (fired_registry ev st st' m Hf)
        as [Heq|[(c & fs & -> & Heq & HL & HS)|(layer & -> & Heq)]]; rewrite Heq.
      * by apply Hold.
      * simpl in Ho. destruct (Hlists c Ho) as [Hnd Himp].
        destruct (Hold c Ho) as [_ Himp'].
        split.
        -- apply NoDup_app. split; [done|]. split; [|apply NoDup_singleton].
           intros l Hl Hl'. apply list_elem_of_singleton in Hl' as ->.
           apply Himp, (imported_layer_allocated st _ Hwf) in Hl. lia.
        -- intros l [Hl|Hl]%elem_of_app; [by apply Himp'|].
           apply list_elem_of_singleton in Hl as ->.
           eexists _, (next st), import_style. split_and!; try done.
           rewrite Hvs.
           assert (vectorSource st < next st)
             by (apply (wf_sources_fresh st Hwf), (wf_vectorSource st Hwf)).
           lia.
      * destruct (Hold _ Hcur) as [Hnd Himp]. split.
        -- by apply NoDup_filter.
        -- intros l [_ Hl]%list_elem_of_filter. by apply Himp.
    + destruct (fired_layout ev st st' m Hf Hm)
        as (m' & Hm' & [(tile & n & Ht & Hlay & Hst & Hsfh)|(Hlay & Hg & Hlt)]).
      * by exists m', n, (S n), tile.
      * destruct Hmap as (m0 & t & fh & tile & Hm0 & Hl0 & Ht0 & Hst0 & Hfh0).
        rewrite Hm in Hm0. injection Hm0 as <-.
        destruct (Hlists _ Hcur) as [_ Himp].
        assert (∀ l L, layer_store st !! l = Some L →
                       (∀ sty, style L ≠ StyleObject sty) →
                       layer_store st' !! l = Some L) as Hkeep.
        { intros l L HL Hsty.
          destruct (fired_layers ev st st' m l L Hwf Hf HL) as (L' & HL' & _ & _ & Hsame).
          rewrite HL'. f_equal. apply Hsame. intros Hin.
          apply (offered_touched h st ev l Ho), Himp in Hin.
          destruct Hin as (L0 & s0 & sty0 & HL0 & _ & Hsty0 & _).
          rewrite HL in HL0. injection HL0 as <-. by apply (Hsty sty0). }
        exists m', t, fh, tile. rewrite Hlay, Hg, Hlt, Hvs. split_and!; try done.
        -- apply Hkeep; [done|]. intros sty.
           destruct (tile_for_source _ _ Ht0) as [[_ ->]|[_ ->]]; done.
        -- apply Hkeep; [done|]. done.
Qed.

(** X4: in every state of a session driven through the page, the layer
    collection of the map is, in this order, one tile layer for the chosen
    basemap, the drawing layer over the Geometry Store, visible and with
    the default style, and the layers of [geoJsonLayers]; no layer is on
    the map twice. *)
Theorem X4_map_shows_registry (h : list (list ref)) (st : App) :
  ui_session h st →
  ∃ m t fh,
    map st = Some m ∧
    layers m = t :: fh :: geoJsonLayers st ∧ NoDup (layers m) ∧
    layer_store st !! t
    = Some (new_TileLayer (if String.eqb (layerType st) "osm"
                           then OSM else XYZ satellite_url)) ∧
    layer_store st !! fh = Some (new_VectorLayer (vectorSource st)).
Proof.
  intros Hs. destruct (ui_session_inv h st Hs) as [Hcur Hlists Hmap].
  destruct Hmap as (m & t & fh & tile & Hm & Hlay & Ht & Hst & Hfh).
  destruct (Hlists _ Hcur) as [Hnd Himp].
  assert (tile = new_TileLayer (if String.eqb (layerType st) "osm"
                                then OSM else XYZ satellite_url)) as Htile
    by (destruct (tile_for_source _ _ Ht) as [[-> ->]|[-> ->]]; done).
  assert (∀ l L, layer_store st !! l = Some L → (∀ sty, style L ≠ StyleObject sty) →
                 l ∉ geoJsonLayers st) as Hnot.
  { intros l L HL Hsty Hin.
    destruct (Himp l Hin) as (L0 & s0 & sty0 & HL0 & _ & Hsty0 & _).
    rewrite HL in HL0. injection HL0 as <-. by apply (Hsty sty0). }
  exists m, t, fh. rewrite Hlay, <- Htile. split_and!; try done.
  apply NoDup_cons. split.
  - intros [->|Hin]%elem_of_cons.
    + rewrite Hst in Hfh. rewrite Htile in Hfh. injection Hfh as Hsrc.
      by destruct (String.eqb (layerType st) "osm").
    + apply (Hnot t tile Hst); [|done]. rewrite Htile. done.
  - apply NoDup_cons. split; [|done].
    by apply (Hnot fh _ Hfh).
Qed.

Lemma X4_map_shows_registry_witness :
  ui_session [[6; 10]; [6]; []] (state_after [FileLoaded [] [7]; FileLoaded [6] [8]])
  ∧ ∃ m t fh,
      map (state_after [FileLoaded [] [7]; FileLoaded [6] [8]]) = Some m
      ∧ layers m = t :: fh :: geoJsonLayers (state_after [FileLoaded [] [7]; FileLoaded [6] [8]])
      ∧ NoDup (layers m).
Proof.
  assert (ui_session [[6; 10]; [6]; []]
            (state_after [FileLoaded [] [7]; FileLoaded [6] [8]])) as Hs.
  { change (ui_session
              (geoJsonLayers (state_after [FileLoaded [] [7]; FileLoaded [6] [8]])
               :: [[6]; []])
              (state_after [FileLoaded [] [7]; FileLoaded [6] [8]])).
    apply (ui_event [[6]; []] (state_after [FileLoaded [] [7]]) (FileLoaded [6] [8])).
    - change (ui_session (geoJsonLayers (state_after [FileLoaded [] [7]]) :: [[]])
                (state_after [FileLoaded [] [7]])).
      apply (ui_event [[]] (state_after []) (FileLoaded [] [7])).
      + apply (ui_mount (state_after [])). vm_compute. reflexivity.
      + simpl. left.
      + vm_compute. reflexivity.
    - simpl. left.
    - vm_compute. reflexivity. }
  split; [exact Hs|].
  destruct (X4_map_shows_registry _ _ Hs) as (m & t & fh & Hm & Hlay & Hnd & _).
  exists m, t, fh. split; [exact Hm|]. split; [exact Hlay|exact Hnd].
Defined.



(** X6: in a session driven through the page, [geoJsonLayers] holds each
    layer once, and each is a layer an import built: it carries a style
    object and has a vector source of its own, which exists and is not the
    source of the Geometry Store.  So every entry of the layer list can be
    rendered, styled, and downloaded. *)
Theorem X6_registry_holds_imports (h : list (list ref)) (st : App) :
  ui_session h st →
  NoDup (geoJsonLayers st)
  ∧ (∀ l, l ∈ geoJsonLayers st →
          imported_layer st l ∧ is_Some (download_layer l st))
  ∧ is_Some (render st).
Proof.
  intros Hs. destruct (ui_session_inv h st Hs) as [Hcur Hlists _].
  destruct (Hlists _ Hcur) as [Hnd Himp].
  split; [done|]. split.
  - intros l Hl. split; [by apply Himp|].
    destruct (Himp l Hl) as (L & s & sty & HL & Hsrc & _ & _ & [fs Hfs]).
    unfold download_layer. rewrite HL. simpl. rewrite Hsrc, Hfs. done.
  - unfold render.
    assert (∀ ls index, (∀ l, l ∈ ls → imported_layer st l) →
                        is_Some (render_rows index ls st)) as Hrows.
    { induction ls as [|l ls IH]; intros index Hall; simpl; [done|].
      destruct (Hall l) as (L & _ & _ & HL & _); [by left|].
      rewrite HL. simpl.
      destruct (IH (S index)) as [rest ->]; [|done].
      intros l' Hl'. apply Hall. by right. }
    destruct (Hrows (geoJsonLayers st) 0 Himp) as [rs ->]. done.
Qed.

Lemma X6_registry_holds_imports_witness :
  ui_session [[6]; []] (state_after [FileLoaded [] [7]])
  ∧ NoDup (geoJsonLayers (state_after [FileLoaded [] [7]]))
  ∧ is_Some (render (state_after [FileLoaded [] [7]])).
Proof.
  assert (ui_session [[6]; []] (state_after [FileLoaded [] [7]])) as Hs.
  { change (ui_session (geoJsonLayers (state_after [FileLoaded [] [7]]) :: [[]])
              (state_after [FileLoaded [] [7]])).
    apply (ui_event [[]] (state_after []) (FileLoaded [] [7])).
    - apply (ui_mount (state_after [])). vm_compute. reflexivity.
    - simpl. left.
    - vm_compute. reflexivity. }
  split; [exact Hs|].
  destruct (X6_registry_holds_imports _ _ Hs) as (Hnd & _ & Hrender).
  split; [exact Hnd|exact Hrender].
Defined.

(** ** Single handlers *)

(** X7: the show/hide button of a layer is its own inverse.  One press
    negates the visibility of that layer and changes nothing else, not the
    other layers and not the "show all" flag; a second press gives back
    exactly the state before the first. *)
Theorem X7_show_hide_twice (st : App) (layer : ref) (L : Layer) :
  layer_store st !! layer = Some L →
  ∃ st1,
    handleLayerAction "showHide" layer st = Some st1 ∧
    getVisible layer st1 = Some (negb (visible L)) ∧
    (∀ other, other ≠ layer → layer_store st1 !! other = layer_store st !! other) ∧
    showAllLayers st1 = showAllLayers st ∧
    geoJsonLayers st1 = geoJsonLayers st ∧ map st1 = map st ∧
    handleLayerAction "showHide" layer st1 = Some st.
Proof.
  intros HL. unfold handleLayerAction. simpl. rewrite HL.
  eexists. split; [done|]. unfold getVisible. simpl.
  rewrite lookup_insert_eq. split_and!; try done.
  - intros other Hne. by rewrite lookup_insert_ne.
  - unfold set_layer_store. simpl. rewrite insert_insert_eq.
    rewrite negb_involutive.
    replace (setVisible (visible L) (setVisible (negb (visible L)) L)) with L
      by (by destruct L).
    rewrite (insert_id _ _ _ HL). by rewrite app_eta.
Qed.

Lemma X7_show_hide_twice_witness :
  layer_store (state_after [FileLoaded [] [7]]) !! 6
  = Some (mkLayer (Vector 5) true (StyleObject import_style))
  ∧ ∃ st1,
      handleLayerAction "showHide" 6 (state_after [FileLoaded [] [7]]) = Some st1
      ∧ getVisible 6 st1 = Some false
      ∧ handleLayerAction "showHide" 6 st1 = Some (state_after [FileLoaded [] [7]]).
Proof.
  assert (layer_store (state_after [FileLoaded [] [7]]) !! 6
          = Some (mkLayer (Vector 5) true (StyleObject import_style))) as HL
    by (vm_compute; reflexivity).
  split; [exact HL|].
  destruct (X7_show_hide_twice _ 6 _ HL) as (st1 & H1 & Hv & _ & _ & _ & _ & H2).
  exists st1. split; [exact H1|]. split; [exact Hv|exact H2].
Defined.

(** X8: the stroke colour and stroke width changes each set their own
    field and keep the two others: a colour change stores the value as the
    stroke colour and keeps the stroke width and the fill colour; a width
    change stores the value as the stroke width and keeps the stroke colour
    and the fill colour.  Neither changes the visibility or the source of
    the layer, nor any other layer. *)
Theorem X8_stroke_changes_keep_the_rest (st : App) (layer : ref) (L : Layer)
    (s : Style) (value : string) :
  layer_store st !! layer = Some L → style L = StyleObject s →
  (∃ st' L',
      handleStyleChange layer "color" value st = Some st' ∧
      layer_store st' !! layer = Some L' ∧
      slot_stroke_color (style L') = Some value ∧
      slot_stroke_width (style L') = slot_stroke_width (style L) ∧
      slot_fill_color (style L') = slot_fill_color (style L) ∧
      visible L' = visible L ∧ source L' = source L ∧
      ∀ other, other ≠ layer → layer_store st' !! other = layer_store st !! other)
  ∧ (∃ st' L',
      handleStyleChange layer "strokeWidth" value st = Some st' ∧
      layer_store st' !! layer = Some L' ∧
      slot_stroke_width (style L') = Some (Str value) ∧
      slot_stroke_color (style L') = slot_stroke_color (style L) ∧
      slot_fill_color (style L') = slot_fill_color (style L) ∧
      visible L' = visible L ∧ source L' = source L ∧
      ∀ other, other ≠ layer → layer_store st' !! other = layer_store st !! other).
Proof.
  intros HL Hs. destruct L as [src vis sty]. simpl in Hs. subst sty.
  unfold handleStyleChange. rewrite HL. simpl.
  split; eexists _, _; (split; [done|]); simpl;
    (split; [by rewrite lookup_insert_eq|]); simpl;
    destruct s as [[[fc]|] [[sc sw]|]]; simpl; split_and!; try done;
    intros other Hne; by rewrite lookup_insert_ne.
Qed.

Lemma X8_stroke_changes_keep_the_rest_witness :
  layer_store (state_after [FileLoaded [] [7]]) !! 6
  = Some (mkLayer (Vector 5) true (StyleObject import_style))
  ∧ ∃ st' L',
      handleStyleChange 6 "color" "#00ff00" (state_after [FileLoaded [] [7]]) = Some st'
      ∧ layer_store st' !! 6 = Some L'
      ∧ slot_stroke_color (style L') = Some "#00ff00"
      ∧ slot_stroke_width (style L') = Some (Num 1)
      ∧ slot_fill_color (style L') = Some "rgba(255, 255, 255, 0.6)".
Proof.
  assert (layer_store (state_after [FileLoaded [] [7]]) !! 6
          = Some (mkLayer (Vector 5) true (StyleObject import_style))) as HL
    by (vm_compute; reflexivity).
  split; [exact HL|].
  destruct (X8_stroke_changes_keep_the_rest _ 6 _ import_style "#00ff00" HL eq_refl)
    as [(st' & L' & H1 & H2 & H3 & H4 & H5 & _) _].
  exists st', L'. split; [exact H1|]. split; [exact H2|]. split; [exact H3|].
  split; [exact H4|exact H5].
Defined.

(** X9: style changes compose as assignments to separate fields.  On a
    layer that carries a style object, changes of two different properties
    give the same state in either order, and of two changes of the same
    property the second one alone decides the result. *)
Theorem X9_style_changes_compose (st : App) (layer : ref) (L : Layer) (s : Style)
    (p1 p2 v1 v2 : string) :
  layer_store st !! layer = Some L → style L = StyleObject s →
  (p1 ≠ p2 →
   ∃ st', (st1 ← handleStyleChange layer p1 v1 st; handleStyleChange layer p2 v2 st1)
          = Some st'
          ∧ (st2 ← handleStyleChange layer p2 v2 st; handleStyleChange layer p1 v1 st2)
            = Some st')
  ∧ (st1 ← handleStyleChange layer p1 v1 st; handleStyleChange layer p1 v2 st1)
    = handleStyleChange layer p1 v2 st.
Proof.
  intros HL Hs. destruct L as [src vis sty]. simpl in Hs. subst sty.
  split.
  - intros Hne. unfold handleStyleChange. rewrite HL.
    simpl; rewrite !lookup_insert_eq; simpl;
      destruct (String.eqb_spec p1 "color"), (String.eqb_spec p1 "strokeWidth"),
               (String.eqb_spec p1 "fillOpacity"),
               (String.eqb_spec p2 "color"), (String.eqb_spec p2 "strokeWidth"),
               (String.eqb_spec p2 "fillOpacity");
      try congruence; simpl; unfold set_layer_store; simpl;
      rewrite ?insert_insert_eq; eexists; split; reflexivity.
  - unfold handleStyleChange. rewrite HL.
    simpl; rewrite !lookup_insert_eq; simpl;
      destruct (String.eqb_spec p1 "color"), (String.eqb_spec p1 "strokeWidth"),
               (String.eqb_spec p1 "fillOpacity");
      try congruence; simpl; unfold set_layer_store; simpl;
      rewrite ?insert_insert_eq; reflexivity.
Qed.

Lemma X9_style_changes_compose_witness :
  layer_store (state_after [FileLoaded [] [7]]) !! 6
  = Some (mkLayer (Vector 5) true (StyleObject import_style))
  ∧ ∃ st',
      (st1 ← handleStyleChange 6 "color" "#00ff00" (state_after [FileLoaded [] [7]]);
       handleStyleChange 6 "fillOpacity" "0.2" st1) = Some st'
      ∧ (st2 ← handleStyleChange 6 "fillOpacity" "0.2" (state_after [FileLoaded [] [7]]);
         handleStyleChange 6 "color" "#00ff00" st2) = Some st'.
Proof.
  assert (layer_store (state_after [FileLoaded [] [7]]) !! 6
          = Some (mkLayer (Vector 5) true (StyleObject import_style))) as HL
    by (vm_compute; reflexivity).
  split; [exact HL|].
  destruct (X9_style_changes_compose _ 6 _ import_style
              "color" "fillOpacity" "#00ff00" "0.2" HL eq_refl) as [Hcomm _].
  apply Hcomm. discriminate.
Defined.

(** X10: before the map exists only the draw buttons are guarded.  With
    [map] still [null], [addDrawInteraction] returns at once and the second
    effect does nothing, both leaving the state as it is, while the modify
    and translate buttons, the load listener and the zoom and delete
    actions call a method of [null] and throw. *)
Theorem X10_no_map_yet (st : App) (type : string) (captured : list ref)
    (features : list feature) (layer : ref) :
  map st = None →
  addDrawInteraction type st = Some st ∧ layers_effect st = Some st ∧
  handleModifyFeatures st = None ∧ handleTranslateFeatures st = None ∧
  reader_onload captured features st = None ∧
  handleLayerAction "zoom" layer st = None ∧
  handleLayerAction "delete" layer st = None.
Proof.
  intros Hm.
  unfold addDrawInteraction, layers_effect, handleModifyFeatures,
    handleTranslateFeatures, reader_onload, handleLayerAction.
  simpl. rewrite Hm. done.
Qed.

Lemma X10_no_map_yet_witness :
  map initial = None
  ∧ addDrawInteraction "Point" initial = Some initial
  ∧ handleModifyFeatures initial = None.
Proof.
  assert (map initial = None) as Hm by reflexivity.
  split; [exact Hm|].
  destruct (X10_no_map_yet initial "Point" [] [] 0 Hm) as (Hd & _ & Hmod & _).
  split; [exact Hd|exact Hmod].
Defined.

(** X11: the basemap select outside of a change between the two basemaps.
    Choosing the basemap that is already shown changes nothing at all: no
    layer is built and the map is not touched.  A value that is neither
    ['osm'] nor ['satellite'] makes the effect clear the map and then fail
    on the missing tile layer. *)
Theorem X11_basemap_edge_cases (st : App) :
  reachable st →
  step (LayerChange (layerType st)) st = Some st
  ∧ ∀ value, value ≠ "osm" → value ≠ "satellite" →
             step (LayerChange value) st = None.
Proof.
  intros Hr. destruct (reachable_inv st Hr) as [Hwf _].
  destruct (wf_map st Hwf) as [m Hm]. split.
  - simpl. rewrite String.eqb_refl. unfold handleLayerChange, setLayerType.
    by rewrite app_eta.
  - intros value Ho Hs. simpl.
    assert (value ≠ layerType st) as Hne
      by (destruct (wf_layerType st Hwf) as [-> | ->]; done).
    rewrite (proj2 (String.eqb_neq _ _) Hne).
    unfold layers_effect. simpl. rewrite Hm.
    rewrite (proj2 (String.eqb_neq _ _) Ho), (proj2 (String.eqb_neq _ _) Hs). done.
Qed.

Lemma X11_basemap_edge_cases_witness :
  reachable (state_after [FileLoaded [] [7]])
  ∧ step (LayerChange "osm") (state_after [FileLoaded [] [7]])
    = Some (state_after [FileLoaded [] [7]])
  ∧ step (LayerChange "terrain") (state_after [FileLoaded [] [7]]) = None.
Proof.
  assert (reachable (state_after [FileLoaded [] [7]])) as Hr
    by (apply (reachable_session [FileLoaded [] [7]]); vm_compute; reflexivity).
  split; [exact Hr|].
  destruct (X11_basemap_edge_cases _ Hr) as [Hsame Hbad].
  split; [exact Hsame|]. apply Hbad; discriminate.
Defined.

(** ** Imports that overlap *)

Lemma step_file_total (st : App) (captured : list ref) (features : list feature) :
  reachable st → ∃ st1, step (FileLoaded captured features) st = Some st1.
Proof.
  intros Hr. destruct (reachable_inv st Hr) as [Hwf _]. simpl.
  destruct (reader_onload_wf captured features st Hwf) as (s1 & -> & Hwf1).
  simpl. destruct (layers_effect_wf s1 Hwf1) as (s2 & -> & _). eauto.
Qed.

(** X12: of two files chosen in the same render, only the one loaded last
    stays.  Both load listeners hold the same list [captured]; the second
    one to run sets [geoJsonLayers] to that list followed by its own layer,
    so the layer of the first is neither in the list nor on the map any
    more, although the layer object and its features still exist. *)
Theorem X12_overlapping_imports (st : App) (captured : list ref)
    (features1 features2 : list feature) :
  reachable st →
  (∀ l, l ∈ captured → is_Some (layer_store st !! l)) →
  ∃ st1 st2 m2,
    step (FileLoaded captured features1) st = Some st1 ∧
    step (FileLoaded captured features2) st1 = Some st2 ∧
    geoJsonLayers st1 = captured ++ [S (next st)] ∧
    geoJsonLayers st2 = captured ++ [S (next st1)] ∧
    (S (next st) ∉ geoJsonLayers st2) ∧
    map st2 = Some m2 ∧ (S (next st) ∉ layers m2) ∧
    ∃ d, download_layer (S (next st)) st2 = Some d ∧
         download_features d ≡ₚ features1.
Proof.
  intros Hr Hc. destruct (reachable_inv st Hr) as [Hwf _].
  destruct (wf_map st Hwf) as [m Hm].
  assert (vectorSource st < next st) as Hvs
    by (apply (wf_sources_fresh st Hwf), (wf_vectorSource st Hwf)).
  assert (∀ l, l ∈ captured → l < next st) as Hlt
    by (intros l Hl; by apply (wf_layers_fresh st Hwf), Hc).
  destruct (step_file_total st captured features1 Hr) as [st1 H1].
  pose proof (reachable_step st _ st1 Hr H1) as Hr1.
  destruct (reachable_inv st1 Hr1) as [Hwf1 _].
  destruct (wf_map st1 Hwf1) as [m1 Hm1].
  destruct (step_file_total st1 captured features2 Hr1) as [st2 H2].
  pose proof (step_fired _ st st1 m Hwf Hm H1) as Hf1.
  pose proof (step_fired _ st1 st2 m1 Hwf1 Hm1 H2) as Hf2.
  destruct (step_layers _ st1 st2 (S (next st))
              (mkLayer (Vector (next st)) true (StyleObject import_style)) Hr1 H2)
    as (L' & HL' & Hsrc & _).
  { inversion Hf1; subst. simpl.
    rewrite !lookup_insert_ne by lia. by rewrite lookup_insert_eq. }
  destruct (step_sources _ st1 st2 Hr1 H2) as (_ & _ & Hother).
  assert (source_store st2 !! next st = Some features1) as Hfs.
  { rewrite (Hother (next st)); inversion Hf1; subst; simpl.
    - by rewrite lookup_insert_eq.
    - lia.
    - by rewrite lookup_insert_eq. }
  assert (next st1 = S (S (S (S (next st))))) as Hn1
    by (inversion Hf1; subst; done).
  assert (download_layer (S (next st)) st2
          = Some (mkDownload features1 "application/json" "layer.geojson")) as Hdl.
  { unfold download_layer. rewrite HL'. simpl. rewrite Hsrc. simpl.
    by rewrite Hfs. }
  clear HL' Hfs Hother.
  inversion Hf2 as [| | | | | | |c fs tile Ht| | | | |]; subst.
  eexists st1, _, _. split; [done|]. split; [exact H2|].
  split; [inversion Hf1; subst; done|]. simpl. split; [done|].
  assert (S (next st) ∉ captured ++ [S (next st1)]) as Hnot.
  { intros [Hin|Hin]%elem_of_app.
    - apply Hlt in Hin. lia.
    - apply list_elem_of_singleton in Hin. lia. }
  split; [done|]. split; [done|]. split; [|by eexists].
  intros [Hin|[Hin|Hin]%elem_of_cons]%elem_of_cons; [lia|lia|done].
Qed.

Lemma X12_overlapping_imports_witness :
  reachable (state_after [])
  ∧ (st2 ← session [FileLoaded [] [7]; FileLoaded [] [8]];
     m2 ← map st2; Some (geoJsonLayers st2, layers m2))
    = Some ([10], [11; 12; 10])
  ∧ ∃ st1 st2,
      step (FileLoaded [] [7]) (state_after []) = Some st1
      ∧ step (FileLoaded [] [8]) st1 = Some st2
      ∧ (S (next (state_after [])) ∉ geoJsonLayers st2).
Proof.
  assert (reachable (state_after [])) as Hr
    by (apply (reachable_session []); vm_compute; reflexivity).
  split; [exact Hr|]. split; [vm_compute; reflexivity|].
  destruct (X12_overlapping_imports _ [] [7] [8] Hr)
    as (st1 & st2 & m2 & H1 & H2 & _ & _ & Hnot & _).
  { intros l Hl. by apply elem_of_nil in Hl. }
  exists st1, st2. split; [exact H1|]. split; [exact H2|exact Hnot].
Defined.

(** ** The layer list on the page *)

Lemma render_rows_spec (ls : list ref) (index : nat) (st : App) (rs : list LayerRow) :
  render_rows index ls st = Some rs →
  row_layer <$> rs = ls ∧ row_number <$> rs = seq (index + 1) (length ls).
Proof.
  revert index rs. induction ls as [|l ls IH]; intros index rs H; simpl in H.
  - by injection H as <-.
  - destruct (layer_store st !! l) as [L|]; [|done]. simpl in H.
    destruct (render_rows (S index) ls st) as [rest|] eqn:E; [|done].
    simpl in H. injection H as <-.
    destruct (IH (S index) rest E) as [Hl Hn].
    rewrite !fmap_cons, Hl, Hn. split; [done|].
    cbn [length seq row_number]. f_equal.
Qed.

Lemma render_rows_total (ls : list ref) (index : nat) (st : App) :
  (∀ l, l ∈ ls → is_Some (layer_store st !! l)) →
  is_Some (render_rows index ls st).
Proof.
  revert index. induction ls as [|l ls IH]; intros index Hall; simpl; [done|].
  destruct (Hall l) as [L ->]; [by left|]. simpl.
  destruct (IH (S index)) as [rest ->]; [|done].
  intros l' Hl'. apply Hall. by right.
Qed.

Lemma render_rows_flip (ls : list ref) (index : nat) (st : App) (layer : ref)
    (L : Layer) (rs : list LayerRow) :
  layer_store st !! layer = Some L →
  render_rows index ls st = Some rs →
  ∃ rs',
    render_rows index ls
      (set_layer_store (<[layer := setVisible (negb (visible L)) L]> (layer_store st)) st)
    = Some rs'
    ∧ (layer ∈ ls → rs' ≠ rs).
Proof.
  intros HL. revert index rs.
  induction ls as [|l ls IH]; intros index rs H; simpl in H.
  - injection H as <-. exists []. split; [done|]. intros Hin.
    by apply elem_of_nil in Hin.
  - destruct (layer_store st !! l) as [L0|] eqn:HL0; [|done]. simpl in H.
    destruct (render_rows (S index) ls st) as [rest|] eqn:E; [|done].
    simpl in H. injection H as <-.
    destruct (IH (S index) rest E) as (rest' & Hrest' & Hne).
    simpl. rewrite Hrest'. destruct (decide (layer = l)) as [->|Hneq].
    + rewrite lookup_insert_eq. simpl. eexists. split; [done|].
      intros _. rewrite HL in HL0. injection HL0 as <-.
      by destruct (visible L).
    + rewrite lookup_insert_ne by done. rewrite HL0. simpl.
      eexists. split; [done|].
      intros [?|Hin]%elem_of_cons; [done|].
      intros [= Heq]. by apply Hne.
Qed.

Lemma length_filter_remove (l : ref) (ls : list ref) :
  NoDup ls → l ∈ ls → length (filter (λ x, x ≠ l) ls) = length ls - 1.
Proof.
  induction 1 as [|x ls Hx Hnd IH]; intros Hin; [by apply elem_of_nil in Hin|].
  rewrite filter_cons. destruct (decide (x ≠ l)) as [Hne|Heq].
  - apply elem_of_cons in Hin as [->|Hin]; [done|]. simpl. rewrite IH by done.
    destruct ls; [by apply elem_of_nil in Hin|simpl; lia].
  - assert (x = l) as -> by (by destruct (decide (x = l))).
    simpl. rewrite Nat.sub_0_r. f_equal.
    clear IH Hin Hnd. induction ls as [|y ls IH]; [done|].
    apply not_elem_of_cons in Hx as [Hy Hx].
    rewrite filter_cons_True by done. f_equal. by apply IH.
Qed.

(** X13: the show/hide button of a layer does not update the page.  Its
    handler negates the visibility of the layer object and sets no state
    hook, so [App] is not rendered again: the screen stays as it was, and
    the text of the button, computed from [layer.getVisible()] at the last
    render, no longer says what the layer is. *)
Theorem X13_toggle_text_goes_stale (pg : Page) (layer : ref) (L : Layer) :
  layer_store (app pg) !! layer = Some L →
  layer ∈ geoJsonLayers (app pg) →
  view pg = render (app pg) → is_Some (view pg) →
  ∃ pg',
    page_step (LayerButton "showHide" layer) pg = Some pg' ∧
    getVisible layer (app pg') = Some (negb (visible L)) ∧
    view pg' = view pg ∧
    is_Some (render (app pg')) ∧ render (app pg') ≠ view pg'.
Proof.
  intros HL Hin Hview [v Hv]. rewrite Hv in Hview. symmetry in Hview.
  unfold render in Hview.
  destruct (render_rows 0 (geoJsonLayers (app pg)) (app pg)) as [rs|] eqn:Hrs; [|done].
  simpl in Hview. injection Hview as <-.
  destruct (render_rows_flip _ 0 (app pg) layer L rs HL Hrs) as (rs' & Hrs' & Hne).
  unfold page_step. simpl. unfold handleLayerAction. simpl. rewrite HL. simpl.
  eexists. split; [done|]. simpl.
  unfold renders. simpl.
  rewrite !bool_decide_false by (intros Hx; by apply Hx). simpl.
  unfold getVisible, render. simpl. rewrite lookup_insert_eq, Hrs'. simpl.
  split_and!; try done.
  rewrite Hv. intros [= Heq]. by apply Hne.
Qed.

Lemma X13_toggle_text_goes_stale_witness :
  layer_store (state_after [FileLoaded [] [7]]) !! 6
  = Some (mkLayer (Vector 5) true (StyleObject import_style))
  ∧ render (state_after [FileLoaded [] [7]])
    = Some (mkView "osm" true [mkRow 1 6 "Hide"])
  ∧ ∃ pg',
      page_step (LayerButton "showHide" 6)
        (mkPage (state_after [FileLoaded [] [7]])
                (render (state_after [FileLoaded [] [7]]))) = Some pg'
      ∧ getVisible 6 (app pg') = Some false
      ∧ view pg' = render (state_after [FileLoaded [] [7]]).
Proof.
  assert (∀ a v,
            layer_store a !! 6
            = Some (mkLayer (Vector 5) true (StyleObject import_style)) →
            6 ∈ geoJsonLayers a → render a = Some v →
            ∃ pg', page_step (LayerButton "showHide" 6) (mkPage a (render a)) = Some pg'
                   ∧ getVisible 6 (app pg') = Some false
                   ∧ view pg' = render a) as Hgen.
  { intros a v HL Hin Hrender.
    destruct (X13_toggle_text_goes_stale (mkPage a (render a)) 6 _ HL Hin eq_refl)
      as (pg' & Hstep & Hvis & Hview & _).
    - exists v. exact Hrender.
    - exists pg'. split; [exact Hstep|]. split; [exact Hvis|exact Hview]. }
  assert (layer_store (state_after [FileLoaded [] [7]]) !! 6
          = Some (mkLayer (Vector 5) true (StyleObject import_style))) as HL
    by (vm_compute; reflexivity).
  assert (render (state_after [FileLoaded [] [7]])
          = Some (mkView "osm" true [mkRow 1 6 "Hide"])) as Hrender
    by (vm_compute; reflexivity).
  assert (6 ∈ geoJsonLayers (state_after [FileLoaded [] [7]])) as Hin
    by (vm_compute; left).
  split; [exact HL|]. split; [exact Hrender|].
  exact (Hgen _ _ HL Hin Hrender).
Defined.

(** X14: deleting a layer through the page renumbers the layer list.  In a
    session driven through the page, after the delete button of a listed
    layer the page is rendered again, the list shows the other layers in
    their earlier order, and their titles are numbered from 1 without a
    gap, one fewer than before. *)
Theorem X14_delete_renumbers_the_list (h : list (list ref)) (pg : Page) (layer : ref) :
  ui_session h (app pg) → layer ∈ geoJsonLayers (app pg) →
  ∃ pg' v',
    page_step (LayerButton "delete" layer) pg = Some pg' ∧
    view pg' = Some v' ∧ render (app pg') = Some v' ∧
    row_layer <$> rows v' = filter (λ l, l ≠ layer) (geoJsonLayers (app pg)) ∧
    row_number <$> rows v' = seq 1 (length (geoJsonLayers (app pg)) - 1).
Proof.
  destruct pg as [st v]. simpl. intros Hs Hin.
  pose proof (ui_session_reachable h st Hs) as Hr.
  destruct (reachable_inv st Hr) as [Hwf _].
  destruct (wf_map st Hwf) as [m Hm].
  destruct (ui_session_inv h st Hs) as [Hcur Hlists _].
  destruct (Hlists _ Hcur) as [Hnd _].
  assert (handleLayerAction "delete" layer st = Some (deleted layer m st)) as Hdel
    by (unfold handleLayerAction; simpl; by rewrite Hm).
  pose proof (handleLayerAction_wf _ _ _ _ Hwf Hdel) as Hwf1.
  destruct (layers_effect_wf _ Hwf1) as (st' & Heff & _).
  assert (step (LayerButton "delete" layer) st = Some st') as Hstep
    by (simpl; rewrite Hdel; simpl; exact Heff).
  assert (geoJsonLayers st' = filter (λ l, l ≠ layer) (geoJsonLayers st)) as Hg.
  { destruct (layers_effect_tile (deleted layer m st) st' (removeLayer layer m)
                eq_refl Heff) as (tile & _ & ->). done. }
  assert (ui_session (geoJsonLayers st' :: h) st') as Hs'.
  { apply (ui_event h st (LayerButton "delete" layer)); [done| |done].
    simpl. split; [done|]. right. by left. }
  destruct (ui_session_inv _ st' Hs') as [Hcur' Hlists' _].
  destruct (Hlists' _ Hcur') as [_ Himp'].
  destruct (render_rows_total (geoJsonLayers st') 0 st') as [rs Hrs].
  { intros l Hl. destruct (Himp' l Hl) as (L & _ & _ & HL & _). by exists L. }
  destruct (render_rows_spec _ _ _ _ Hrs) as [Hlay Hnum].
  assert (render st' = Some (mkView (layerType st') (showAllLayers st') rs)) as Hrender
    by (unfold render; by rewrite Hrs).
  unfold page_step. cbn [app view]. rewrite Hstep. cbn [mbind option_bind].
  assert (renders (LayerButton "delete" layer) st st' = true) as ->
    by (unfold renders; simpl; apply orb_true_r).
  eexists _, _. split; [done|]. cbn [app view]. split; [exact Hrender|].
  split; [exact Hrender|]. cbn [rows].
  rewrite Hlay, Hnum, Hg. split; [done|].
  by rewrite (length_filter_remove layer _ Hnd Hin).
Qed.

Lemma X14_delete_renumbers_the_list_witness :
  ui_session [[6; 10]; [6]; []] (state_after [FileLoaded [] [7]; FileLoaded [6] [8]])
  ∧ ∃ pg' v',
      page_step (LayerButton "delete" 6)
        (mkPage (state_after [FileLoaded [] [7]; FileLoaded [6] [8]]) None) = Some pg'
      ∧ view pg' = Some v'
      ∧ row_layer <$> rows v'
        = filter (λ l, l ≠ 6)
            (geoJsonLayers (state_after [FileLoaded [] [7]; FileLoaded [6] [8]]))
      ∧ row_number <$> rows v'
        = seq 1 (length (geoJsonLayers (state_after [FileLoaded [] [7]; FileLoaded [6] [8]]))
                 - 1).
Proof.
  assert (∀ hh a, ui_session hh a → 6 ∈ geoJsonLayers a →
            ∃ pg' v',
              page_step (LayerButton "delete" 6) (mkPage a None) = Some pg'
              ∧ view pg' = Some v'
              ∧ row_layer <$> rows v' = filter (λ l, l ≠ 6) (geoJsonLayers a)
              ∧ row_number <$> rows v' = seq 1 (length (geoJsonLayers a) - 1)) as Hgen.
  { intros hh a Hs Hin.
    destruct (X14_delete_renumbers_the_list hh (mkPage a None) 6 Hs Hin)
      as (pg' & v' & H1 & H2 & _ & H3 & H4).
    exists pg', v'. split; [exact H1|]. split; [exact H2|]. split; [exact H3|exact H4]. }
  assert (ui_session [[6; 10]; [6]; []]
            (state_after [FileLoaded [] [7]; FileLoaded [6] [8]])) as Hs.
  { change (ui_session
              (geoJsonLayers (state_after [FileLoaded [] [7]; FileLoaded [6] [8]])
               :: [[6]; []])
              (state_after [FileLoaded [] [7]; FileLoaded [6] [8]])).
    apply (ui_event [[6]; []] (state_after [FileLoaded [] [7]]) (FileLoaded [6] [8])).
    - change (ui_session (geoJsonLayers (state_after [FileLoaded [] [7]]) :: [[]])
                (state_after [FileLoaded [] [7]])).
      apply (ui_event [[]] (state_after []) (FileLoaded [] [7])).
      + apply (ui_mount (state_after [])). vm_compute. reflexivity.
      + simpl. left.
      + vm_compute. reflexivity.
    - simpl. left.
    - vm_compute. reflexivity. }
  split; [exact Hs|].
  apply (Hgen _ _ Hs). vm_compute. left.
Defined.

Lemma render_rows_toggle (ls : list ref) (index : nat) (st : App)
    (rs : list LayerRow) (r : LayerRow) :
  render_rows index ls st = Some rs → r ∈ rs →
  row_layer r ∈ ls ∧
  ∃ L, layer_store st !! row_layer r = Some L ∧
       row_toggle r = if visible L then "Hide" else "Show".
Proof.
  revert index rs. induction ls as [|l ls IH]; intros index rs H Hr; simpl in H.
  - injection H as <-. by apply elem_of_nil in Hr.
  - destruct (layer_store st !! l) as [L|] eqn:HL; [|done]. simpl in H.
    destruct (render_rows (S index) ls st) as [rest|] eqn:E; [|done].
    simpl in H. injection H as <-.
    apply elem_of_cons in Hr as [->|Hr].
    + simpl. split; [by left|]. by exists L.
    + destruct (IH (S index) rest E Hr) as [Hin HL']. split; [by right|done].
Qed.

(** X15: the "Show/Hide All Layers" box and the layer list agree right
    after the box is used.  In a session driven through the page, a change
    of the box renders the page again with the box in its new state, and
    every listed layer then has that state as its visibility, with the
    button text to match. *)
Theorem X15_box_and_list_agree (h : list (list ref)) (pg : Page) :
  ui_session h (app pg) →
  ∃ pg' v',
    page_step ShowHideAllBox pg = Some pg' ∧
    view pg' = Some v' ∧ render (app pg') = Some v' ∧
    checkbox_checked v' = negb (showAllLayers (app pg)) ∧
    row_layer <$> rows v' = geoJsonLayers (app pg) ∧
    ∀ r, r ∈ rows v' →
         getVisible (row_layer r) (app pg') = Some (checkbox_checked v') ∧
         row_toggle r = if checkbox_checked v' then "Hide" else "Show".
Proof.
  destruct pg as [st v]. cbn [app view]. intros Hs.
  assert (ui_session (geoJsonLayers (handleShowHideAll st) :: h) (handleShowHideAll st))
    as Hs' by (by apply (ui_event h st ShowHideAllBox)).
  destruct (ui_session_inv _ _ Hs') as [Hcur' Hlists' _].
  destruct (Hlists' _ Hcur') as [_ Himp'].
  destruct (render_rows_total (geoJsonLayers (handleShowHideAll st)) 0
              (handleShowHideAll st)) as [rs Hrs].
  { intros l Hl. destruct (Himp' l Hl) as (L & _ & _ & HL & _). by exists L. }
  destruct (render_rows_spec _ _ _ _ Hrs) as [Hlay _].
  assert (render (handleShowHideAll st)
          = Some (mkView (layerType st) (negb (showAllLayers st)) rs)) as Hrender
    by (unfold render; by rewrite Hrs).
  unfold page_step. cbn [app view step mbind option_bind].
  assert (renders ShowHideAllBox st (handleShowHideAll st) = true) as ->.
  { unfold renders. simpl.
    rewrite (bool_decide_true (negb (showAllLayers st) ≠ showAllLayers st))
      by (by destruct (showAllLayers st)).
    by rewrite orb_true_r. }
  eexists _, _. split; [done|]. cbn [app view]. split; [exact Hrender|].
  split; [exact Hrender|]. cbn [rows checkbox_checked]. split; [done|].
  split; [exact Hlay|].
  intros r Hr. destruct (render_rows_toggle _ _ _ _ r Hrs Hr) as [Hin (L & HL & Htext)].
  simpl in Hin. unfold getVisible. rewrite HL, Htext. simpl.
  simpl in HL. rewrite lookup_setVisible_all in HL.
  rewrite decide_True in HL by done.
  destruct (layer_store st !! row_layer r) as [L0|]; [|done].
  simpl in HL. injection HL as <-. done.
Qed.

Lemma X15_box_and_list_agree_witness :
  ui_session [[6]; []] (state_after [FileLoaded [] [7]])
  ∧ ∃ pg' v',
      page_step ShowHideAllBox (mkPage (state_after [FileLoaded [] [7]]) None) = Some pg'
      ∧ view pg' = Some v'
      ∧ checkbox_checked v' = negb (showAllLayers (state_after [FileLoaded [] [7]]))
      ∧ row_layer <$> rows v' = geoJsonLayers (state_after [FileLoaded [] [7]]).
Proof.
  assert (∀ hh a, ui_session hh a →
            ∃ pg' v',
              page_step ShowHideAllBox (mkPage a None) = Some pg'
              ∧ view pg' = Some v'
              ∧ checkbox_checked v' = negb (showAllLayers a)
              ∧ row_layer <$> rows v' = geoJsonLayers a) as Hgen.
  { intros hh a Hs.
    destruct (X15_box_and_list_agree hh (mkPage a None) Hs)
      as (pg' & v' & H1 & H2 & _ & H3 & H4 & _).
    exists pg', v'. split; [exact H1|]. split; [exact H2|]. split; [exact H3|exact H4]. }
  assert (ui_session [[6]; []] (state_after [FileLoaded [] [7]])) as Hs.
  { change (ui_session (geoJsonLayers (state_after [FileLoaded [] [7]]) :: [[]])
              (state_after [FileLoaded [] [7]])).
    apply (ui_event [[]] (state_after []) (FileLoaded [] [7])).
    - apply (ui_mount (state_after [])). vm_compute. reflexivity.
    - simpl. left.
    - vm_compute. reflexivity. }
  split; [exact Hs|]. exact (Hgen _ _ Hs).
Defined.

(** ** Identity of the installed interactions *)




(** ** Translate *)

Section Dragging.

(** What a drag does is decided by [ol/interaction/Translate], which is not
    part of [src/], so it enters as a parameter: [moves i f] says that a
    drag handled by the interaction [i] moves the feature [f].  Of it only
    the contract of the [features] option is used: an interaction built
    with given features translates no feature outside of them.  Line 178
    passes the array that [getFeatures] returns; the contract holds as well
    of a library that translates the features of the array as of one that
    fails on an array and translates nothing. *)
Variable moves : interaction → feature → Prop.
Hypothesis moves_within_features :
  ∀ id fs f, moves (Translate id fs) f → f ∈ fs.


End Dragging.


(** ** The drawing layer *)

Lemma filter_absent (l : ref) (ls : list ref) :
  l ∉ ls → filter (λ x, x ≠ l) ls = ls.
Proof.
  induction ls as [|x ls IH]; intros Hl; [done|].
  apply not_elem_of_cons in Hl as [Hne Hl].
  rewrite filter_cons_True by done. f_equal. by apply IH.
Qed.

Lemma render_rows_same (ls : list ref) (index : nat) (st st' : App) :
  (∀ l, l ∈ ls → layer_store st' !! l = layer_store st !! l) →
  render_rows index ls st' = render_rows index ls st.
Proof.
  revert index. induction ls as [|l ls IH]; intros index Hsame; simpl; [done|].
  rewrite (Hsame l) by (by left).
  rewrite (IH (S index)); [done|].
  intros l' Hl'. apply Hsame. by right.
Qed.

(** C5: the drawing layer is permanent.  In every state of a session driven
    through the page the layer over the Geometry Store is on the map, before
    and after every event.  No control removes it: it is not in
    [geoJsonLayers], the only layers that have a delete button.  Were the
    delete action applied to it all the same, nothing would be removed: the
    render that follows leaves the map with a tile layer, a drawing layer
    over the same vector source and the same imported layers, the same
    features, interactions and flags, and the same page.  An imported layer
    is removed by its delete button, from the list and from the map, and
    the others stay. *)
Theorem C5_drawing_layer_permanent (h : list (list ref)) (st : App) :
  ui_session h st →
  has_freehand st
  ∧ (∀ ev st', step ev st = Some st' → has_freehand st')
  ∧ (∃ m t fh,
       map st = Some m ∧ layers m = t :: fh :: geoJsonLayers st ∧
       layer_store st !! fh = Some (new_VectorLayer (vectorSource st)) ∧
       (fh ∉ geoJsonLayers st) ∧
       ∃ st' m' t' fh',
         step (LayerButton "delete" fh) st = Some st' ∧
         map st' = Some m' ∧ layers m' = t' :: fh' :: geoJsonLayers st ∧
         layer_store st' !! fh' = Some (new_VectorLayer (vectorSource st)) ∧
         layer_store st' !! t' = layer_store st !! t ∧
         (∀ l, l ∈ geoJsonLayers st → layer_store st' !! l = layer_store st !! l) ∧
         geoJsonLayers st' = geoJsonLayers st ∧
         source_store st' = source_store st ∧
         vectorSource st' = vectorSource st ∧
         interactions m' = interactions m ∧
         drawInteraction st' = drawInteraction st ∧
         showAllLayers st' = showAllLayers st ∧
         layerType st' = layerType st ∧
         render st' = render st)
  ∧ (∀ layer, layer ∈ geoJsonLayers st →
       ∃ st' m',
         step (LayerButton "delete" layer) st = Some st' ∧ map st' = Some m' ∧
         geoJsonLayers st' = filter (λ l, l ≠ layer) (geoJsonLayers st) ∧
         (layer ∉ geoJsonLayers st') ∧ (layer ∉ layers m') ∧
         has_freehand st' ∧
         ∀ other, other ∈ geoJsonLayers st → other ≠ layer → other ∈ layers m').
Proof.
  intros Hs. pose proof (ui_session_reachable h st Hs) as Hr.
  destruct (reachable_inv st Hr) as [Hwf Hfh].
  destruct (ui_session_inv h st Hs) as [Hcur Hlists Hmap].
  destruct (Hlists _ Hcur) as [_ Himp].
  destruct Hmap as (m & t & fh & tile & Hm & Hlay & Ht & Hst & Hsfh).
  assert (∀ layer, step (LayerButton "delete" layer) st
                   = Some (rebuilt tile (removeLayer layer m) (deleted layer m st)))
    as Hdel.
  { intros layer. simpl. unfold handleLayerAction. simpl. rewrite Hm. simpl.
    by apply (tile_for_layers_effect (deleted layer m st) (removeLayer layer m) tile). }
  assert (∀ l, l ∈ geoJsonLayers st → l < next st) as Hlt
    by (intros l Hl; by apply (imported_layer_allocated st l Hwf), Himp).
  assert (∀ ev st', step ev st = Some st' → has_freehand st') as Hafter
    by (intros ev st' H; by apply (reachable_inv st'), (reachable_step st ev)).
  split; [done|]. split; [done|]. split.
  - assert (fh ∉ geoJsonLayers st) as Hnot.
    { intros Hin. destruct (Himp fh Hin) as (L & _ & sty & HL & _ & Hsty & _).
      rewrite Hsfh in HL. by injection HL as <-. }
    exists m, t, fh. split; [done|]. split; [done|]. split; [done|]. split; [done|].
    eexists _, _, (next st), (S (next st)). split; [apply Hdel|].
    assert (∀ l, l ∈ geoJsonLayers st →
              layer_store (rebuilt tile (removeLayer fh m) (deleted fh m st)) !! l
              = layer_store st !! l)
      as Hlisted.
    { intros l Hl. apply Hlt in Hl. simpl. by rewrite !lookup_insert_ne by lia. }
    assert (render (rebuilt tile (removeLayer fh m) (deleted fh m st)) = render st)
      as Hrender.
    { unfold render.
      replace (geoJsonLayers (rebuilt tile (removeLayer fh m) (deleted fh m st)))
        with (geoJsonLayers st) by (simpl; by rewrite (filter_absent fh _ Hnot)).
      by rewrite (render_rows_same _ 0 st _ Hlisted). }
    split_and!; try done; simpl; rewrite ?(filter_absent fh _ Hnot); try done.
    + by rewrite lookup_insert_eq.
    + rewrite lookup_insert_ne by lia. by rewrite lookup_insert_eq, Hst.
  - intros layer Hin. eexists _, _. split; [apply Hdel|]. simpl.
    split; [done|]. split; [done|].
    assert (layer ∉ filter (λ l, l ≠ layer) (geoJsonLayers st)) as Hgone
      by (intros [Hne _]%list_elem_of_filter; done).
    split; [done|]. split; [|split].
    + pose proof (Hlt layer Hin).
      intros [?|[?|?]%elem_of_cons]%elem_of_cons; [lia|lia|done].
    + apply (Hafter (LayerButton "delete" layer)), Hdel.
    + intros other Ho Hne. do 2 apply list_elem_of_further.
      by apply list_elem_of_filter.
Qed.

Lemma C5_drawing_layer_permanent_witness :
  ui_session [[6]; []] (state_after [FileLoaded [] [7]])
  ∧ has_freehand (state_after [FileLoaded [] [7]])
  ∧ shown [FileLoaded [] [7]] = Some [7; 8; 6]
  ∧ shown [FileLoaded [] [7]; LayerButton "delete" 6] = Some [9; 10].
Proof.
  assert (ui_session [[6]; []] (state_after [FileLoaded [] [7]])) as Hs.
  { change (ui_session (geoJsonLayers (state_after [FileLoaded [] [7]]) :: [[]])
              (state_after [FileLoaded [] [7]])).
    apply (ui_event [[]] (state_after []) (FileLoaded [] [7])).
    - apply (ui_mount (state_after [])). vm_compute. reflexivity.
    - simpl. left.
    - vm_compute. reflexivity. }
  split; [exact Hs|].
  destruct (C5_drawing_layer_permanent _ _ Hs) as (Hfh & _).
  split; [exact Hfh|]. split; vm_compute; reflexivity.
Defined.

(** ** Style manager *)


